(** * The BOSH deployment manifest parser ([deployment/manifest/parser.go])

    A shallow embedding of the [manifest] package's parser: the raw document
    structs that the YAML decoder fills, the typed deployment model, the four
    section parsers and the orchestrator [parseDeploymentManifest] / [Parse],
    followed by the properties stated about them.

    Conventions.
    - A Go slice or map that can be [nil] is an [option]: [None] is [nil],
      [Some l] is an allocated value (possibly of length 0).
    - A Go [int] is a [Z]; the parser only copies such fields.
    - A Go [(value, error)] result is a pair whose second component is
      [None] for a [nil] error.
    - Collaborators that live outside [parser.go] ([fs.ReadFile],
      [candiedyaml.Unmarshal], [biproperty.BuildMap], [NewWatchTime]) are
      variables of the section that holds the parser. *)

From Stdlib Require Import ZArith String Ascii List Lia.
From Stdlib Require DecimalString DecimalNat DecimalFacts.
From stdpp Require Import base option list strings.

Set Warnings "-register-all".

Open Scope string_scope.
Open Scope list_scope.

(** ** Go slices *)

Definition slice (A : Type) : Type := option (list A).

Definition elems {A} (s : slice A) : list A :=
  match s with
  | Some l => l
  | None => []
  end.

(** Go's builtin [len]. *)
Definition len {A} (s : slice A) : nat := length (elems s).

(** ** Dynamic values produced by the YAML decoder ([interface{}]) *)

Inductive dyn : Type :=
| DNil
| DString (s : string)
| DInt (z : Z)
| DFloat (bits : Z)
| DBool (b : bool)
| DSlice (l : list dyn)
| DMap (m : list (dyn * dyn))
| DOther (type_name : string).

(** [map[interface{}]interface{}]: entries in document order, [None] when the
    key is absent from the document. *)
Definition rawmap : Type := option (list (dyn * dyn)).

(** ** The canonical property tree ([biproperty.Map]) *)

(** Modelled from the spec: the property tree of section 3 (a scalar, an
    ordered sequence, or a mapping from strings in insertion order); package
    [common/property] is not among the source files. A [Map] is [nil] or a
    mapping. *)

Inductive ptree : Type :=
| PNull
| PString (s : string)
| PInt (z : Z)
| PFloat (bits : Z)
| PBool (b : bool)
| PSeq (l : list ptree)
| PMap (m : list (string * ptree)).

Definition Map : Type := option (list (string * ptree)).

(** ** Raw document structs (lines 23-80 of parser.go) *)

Module UpdateSpec.
Record t : Type := mk {
  UpdateWatchTime : option string
}.
Definition zero : t := mk None.
End UpdateSpec.

Module network.
Record t : Type := mk {
  Name : string;
  Type_ : string;
  CloudProperties : rawmap;
  IP : string;
  Netmask : string;
  Gateway : string;
  DNS : slice string
}.
End network.

Module resourcePool.
Record t : Type := mk {
  Name : string;
  Network : string;
  CloudProperties : rawmap;
  Env : rawmap
}.
End resourcePool.

Module diskPool.
Record t : Type := mk {
  Name : string;
  DiskSize : Z;
  CloudProperties : rawmap
}.
End diskPool.

Module releaseJobRef.
Record t : Type := mk {
  Name : string;
  Release : string
}.
End releaseJobRef.

Module jobNetwork.
Record t : Type := mk {
  Name : string;
  Default : slice string;
  StaticIPs : slice string
}.
End jobNetwork.

Module job.
Record t : Type := mk {
  Name : string;
  Instances : Z;
  Lifecycle : string;
  Templates : slice releaseJobRef.t;
  Networks : slice jobNetwork.t;
  PersistentDisk : Z;
  PersistentDiskPool : string;
  Properties : rawmap
}.
End job.

Module manifest.
Record t : Type := mk {
  Name : string;
  Update : UpdateSpec.t;
  Networks : slice network.t;
  ResourcePools : slice resourcePool.t;
  DiskPools : slice diskPool.t;
  Jobs : slice job.t;
  Properties : rawmap
}.
(** [manifest{}] *)
Definition zero : t := mk "" UpdateSpec.zero None None None None None.
End manifest.

(** ** Errors ([bosherr])

    [bosherr.WrapErrorf(err, format, args...)] is kept as the cause together
    with the format string of the call site and its arguments; the text that
    [%#v] would print is not rendered. *)

Inductive arg : Type :=
| ArgString (s : string)
| ArgProperties (m : rawmap)
| ArgNetworks (s : slice network.t)
| ArgResourcePools (s : slice resourcePool.t)
| ArgDiskPools (s : slice diskPool.t)
| ArgJobs (s : slice job.t).

Inductive error : Type :=
| Errorf (msg : string)
| WrapErrorf (cause : error) (format : string) (args : list arg).

Definition WrapError (cause : error) (msg : string) : error :=
  WrapErrorf cause msg [].

(** ** The typed deployment model *)

(** Modelled from the spec: the structs of the typed model (section 3, data
    model), whose declarations are in [manifest.go] and its sibling files of
    the package and not among the source files. The fields are the ones that
    the composite literals and assignments of [parser.go] name, and
    [JobLifecycle], [NetworkType] and [NetworkDefault] are the string types
    that its conversions show. *)

Definition JobLifecycle : Type := string.
Definition NetworkType : Type := string.
Definition NetworkDefault : Type := string.

Module WatchTime.
Record t : Type := mk {
  Start : Z;
  End_ : Z
}.
Definition zero : t := mk 0 0.
End WatchTime.

Module Update.
Record t : Type := mk {
  UpdateWatchTime : WatchTime.t
}.
Definition zero : t := mk WatchTime.zero.
End Update.

Module Network.
Record t : Type := mk {
  Name : string;
  Type_ : NetworkType;
  CloudProperties : Map;
  IP : string;
  Netmask : string;
  Gateway : string;
  DNS : slice string
}.
Definition zero : t := mk "" "" None "" "" "" None.
Definition with_CloudProperties (v : Map) (n : t) : t :=
  mk (Name n) (Type_ n) v (IP n) (Netmask n) (Gateway n) (DNS n).
End Network.

Module ResourcePool.
Record t : Type := mk {
  Name : string;
  Network : string;
  CloudProperties : Map;
  Env : Map
}.
Definition zero : t := mk "" "" None None.
Definition with_CloudProperties (v : Map) (r : t) : t :=
  mk (Name r) (Network r) v (Env r).
Definition with_Env (v : Map) (r : t) : t :=
  mk (Name r) (Network r) (CloudProperties r) v.
End ResourcePool.

Module DiskPool.
Record t : Type := mk {
  Name : string;
  DiskSize : Z;
  CloudProperties : Map
}.
Definition zero : t := mk "" 0 None.
Definition with_CloudProperties (v : Map) (d : t) : t :=
  mk (Name d) (DiskSize d) v.
End DiskPool.

Module ReleaseJobRef.
Record t : Type := mk {
  Name : string;
  Release : string
}.
Definition zero : t := mk "" "".
End ReleaseJobRef.

Module JobNetwork.
Record t : Type := mk {
  Name : string;
  Default : slice NetworkDefault;
  StaticIPs : slice string
}.
Definition zero : t := mk "" None None.
Definition with_Default (v : slice NetworkDefault) (n : t) : t :=
  mk (Name n) v (StaticIPs n).
End JobNetwork.

Module Job.
Record t : Type := mk {
  Name : string;
  Instances : Z;
  Lifecycle : JobLifecycle;
  Templates : slice ReleaseJobRef.t;
  Networks : slice JobNetwork.t;
  PersistentDisk : Z;
  PersistentDiskPool : string;
  Properties : Map
}.
Definition zero : t := mk "" 0 "" None None 0 "" None.
Definition with_Templates (v : slice ReleaseJobRef.t) (j : t) : t :=
  mk (Name j) (Instances j) (Lifecycle j) v (Networks j)
     (PersistentDisk j) (PersistentDiskPool j) (Properties j).
Definition with_Networks (v : slice JobNetwork.t) (j : t) : t :=
  mk (Name j) (Instances j) (Lifecycle j) (Templates j) v
     (PersistentDisk j) (PersistentDiskPool j) (Properties j).
Definition with_Properties (v : Map) (j : t) : t :=
  mk (Name j) (Instances j) (Lifecycle j) (Templates j) (Networks j)
     (PersistentDisk j) (PersistentDiskPool j) v.
End Job.

Module Manifest.
Record t : Type := mk {
  Name : string;
  Update : Update.t;
  Networks : slice Network.t;
  ResourcePools : slice ResourcePool.t;
  DiskPools : slice DiskPool.t;
  Jobs : slice Job.t;
  Properties : Map
}.
(** [Manifest{}] *)
Definition zero : t := mk "" Update.zero None None None None None.
Definition with_Name (v : string) (m : t) : t :=
  mk v (Update m) (Networks m) (ResourcePools m) (DiskPools m) (Jobs m) (Properties m).
Definition with_Update (v : Update.t) (m : t) : t :=
  mk (Name m) v (Networks m) (ResourcePools m) (DiskPools m) (Jobs m) (Properties m).
Definition with_Networks (v : slice Network.t) (m : t) : t :=
  mk (Name m) (Update m) v (ResourcePools m) (DiskPools m) (Jobs m) (Properties m).
Definition with_ResourcePools (v : slice ResourcePool.t) (m : t) : t :=
  mk (Name m) (Update m) (Networks m) v (DiskPools m) (Jobs m) (Properties m).
Definition with_DiskPools (v : slice DiskPool.t) (m : t) : t :=
  mk (Name m) (Update m) (Networks m) (ResourcePools m) v (Jobs m) (Properties m).
Definition with_Jobs (v : slice Job.t) (m : t) : t :=
  mk (Name m) (Update m) (Networks m) (ResourcePools m) (DiskPools m) v (Properties m).
Definition with_Properties (v : Map) (m : t) : t :=
  mk (Name m) (Update m) (Networks m) (ResourcePools m) (DiskPools m) (Jobs m) v.
End Manifest.

(** [var boshDeploymentDefaults] (lines 82-89). *)
Definition boshDeploymentDefaults : Manifest.t :=
  Manifest.with_Update
    (Update.mk (WatchTime.mk 0 300000))
    Manifest.zero.

(** ** The [make]-then-[range] loop shared by the section parsers

    Every section parser allocates [out := make([]B, len(raw), len(raw))] and
    runs [for i, x := range raw { ...; out[i] = b }], where the body may leave
    the function early with [return out, err]. [outcome] is what one
    iteration of the body does. *)

Inductive outcome (B : Type) : Type :=
| Assign (b : B)
| Return (e : error).
Arguments Assign {B} b.
Arguments Return {B} e.

Fixpoint rangeLoop {A B} (body : A -> outcome B)
    (i : nat) (rest : list A) (out : list B) : list B * option error :=
  match rest with
  | [] => (out, None)
  | x :: rest' =>
      match body x with
      | Return e => (out, Some e)
      | Assign b => rangeLoop body (S i) rest' (<[i := b]> out)
      end
  end.

Definition makeAndRange {A B} (zero : B) (body : A -> outcome B)
    (raw : slice A) : slice B * option error :=
  let '(out, err) := rangeLoop body 0 (elems raw) (replicate (len raw) zero) in
  (Some out, err).

(** A loop whose body never returns early: only the filled slice matters. *)
Definition makeAndMap {A B} (zero : B) (f : A -> B) (raw : slice A) : slice B :=
  fst (makeAndRange zero (fun x => Assign (f x)) raw).

(** ** The parser *)

Section Parser.

(** [p.fs.ReadFile] *)
Variable ReadFile : string -> list Byte.byte * option error.
(** [candiedyaml.Unmarshal(contents, &comboManifest)]: the decoded document
    and the decoder's error. *)
Variable Unmarshal : list Byte.byte -> manifest.t -> manifest.t * option error.
(** [biproperty.BuildMap] *)
Variable BuildMap : rawmap -> Map * option error.
(** [NewWatchTime] *)
Variable NewWatchTime : string -> WatchTime.t * option error.

(** *** [parseJobManifests] (lines 168-223) *)

Definition parseJobNetwork (rawJobNetwork : jobNetwork.t) : JobNetwork.t :=
  let jobNetwork :=
    JobNetwork.mk (jobNetwork.Name rawJobNetwork) None
                  (jobNetwork.StaticIPs rawJobNetwork) in
  match jobNetwork.Default rawJobNetwork with
  | Some _ =>
      let networkDefaults :=
        makeAndMap "" (fun rawDefault : string => rawDefault : NetworkDefault)
                   (jobNetwork.Default rawJobNetwork) in
      JobNetwork.with_Default networkDefaults jobNetwork
  | None => jobNetwork
  end.

Definition parseJob (rawJob : job.t) : outcome Job.t :=
  let job :=
    Job.mk (job.Name rawJob) (job.Instances rawJob)
           (job.Lifecycle rawJob : JobLifecycle) None None
           (job.PersistentDisk rawJob) (job.PersistentDiskPool rawJob) None in
  let job :=
    match job.Templates rawJob with
    | Some _ =>
        let releaseJobRefs :=
          makeAndMap ReleaseJobRef.zero
            (fun rawJobRef =>
               ReleaseJobRef.mk (releaseJobRef.Name rawJobRef)
                                (releaseJobRef.Release rawJobRef))
            (job.Templates rawJob) in
        Job.with_Templates releaseJobRefs job
    | None => job
    end in
  let job :=
    match job.Networks rawJob with
    | Some _ =>
        let jobNetworks :=
          makeAndMap JobNetwork.zero parseJobNetwork (job.Networks rawJob) in
        Job.with_Networks jobNetworks job
    | None => job
    end in
  match job.Properties rawJob with
  | Some _ =>
      let '(properties, err) := BuildMap (job.Properties rawJob) in
      match err with
      | Some err =>
          Return (WrapErrorf err "Parsing job '%s' properties: %#v"
                    [ArgString (job.Name rawJob); ArgProperties (job.Properties rawJob)])
      | None => Assign (Job.with_Properties properties job)
      end
  | None => Assign job
  end.

Definition parseJobManifests (rawJobs : slice job.t) : slice Job.t * option error :=
  makeAndRange Job.zero parseJob rawJobs.

(** *** [parseNetworkManifests] (lines 225-247) *)

Definition parseNetwork (rawNetwork : network.t) : outcome Network.t :=
  let network :=
    Network.mk (network.Name rawNetwork) (network.Type_ rawNetwork : NetworkType) None
               (network.IP rawNetwork) (network.Netmask rawNetwork)
               (network.Gateway rawNetwork) (network.DNS rawNetwork) in
  let '(cloudProperties, err) := BuildMap (network.CloudProperties rawNetwork) in
  match err with
  | Some err =>
      Return (WrapErrorf err "Parsing network '%s' cloud_properties: %#v"
                [ArgString (network.Name rawNetwork);
                 ArgProperties (network.CloudProperties rawNetwork)])
  | None => Assign (Network.with_CloudProperties cloudProperties network)
  end.

Definition parseNetworkManifests (rawNetworks : slice network.t)
    : slice Network.t * option error :=
  makeAndRange Network.zero parseNetwork rawNetworks.

(** *** [parseResourcePoolManifests] (lines 249-273) *)

Definition parseResourcePool (rawResourcePool : resourcePool.t) : outcome ResourcePool.t :=
  let resourcePool :=
    ResourcePool.mk (resourcePool.Name rawResourcePool)
                    (resourcePool.Network rawResourcePool) None None in
  let '(cloudProperties, err) := BuildMap (resourcePool.CloudProperties rawResourcePool) in
  match err with
  | Some err =>
      Return (WrapErrorf err "Parsing resource_pool '%s' cloud_properties: %#v"
                [ArgString (resourcePool.Name rawResourcePool);
                 ArgProperties (resourcePool.CloudProperties rawResourcePool)])
  | None =>
      let resourcePool := ResourcePool.with_CloudProperties cloudProperties resourcePool in
      let '(env, err) := BuildMap (resourcePool.Env rawResourcePool) in
      match err with
      | Some err =>
          Return (WrapErrorf err "Parsing resource_pool '%s' env: %#v"
                    [ArgString (resourcePool.Name rawResourcePool);
                     ArgProperties (resourcePool.Env rawResourcePool)])
      | None => Assign (ResourcePool.with_Env env resourcePool)
      end
  end.

Definition parseResourcePoolManifests (rawResourcePools : slice resourcePool.t)
    : slice ResourcePool.t * option error :=
  makeAndRange ResourcePool.zero parseResourcePool rawResourcePools.

(** *** [parseDiskPoolManifests] (lines 275-293) *)

Definition parseDiskPool (rawDiskPool : diskPool.t) : outcome DiskPool.t :=
  let diskPool :=
    DiskPool.mk (diskPool.Name rawDiskPool) (diskPool.DiskSize rawDiskPool) None in
  let '(cloudProperties, err) := BuildMap (diskPool.CloudProperties rawDiskPool) in
  match err with
  | Some err =>
      Return (WrapErrorf err "Parsing disk_pool '%s' cloud_properties: %#v"
                [ArgString (diskPool.Name rawDiskPool);
                 ArgProperties (diskPool.CloudProperties rawDiskPool)])
  | None => Assign (DiskPool.with_CloudProperties cloudProperties diskPool)
  end.

Definition parseDiskPoolManifests (rawDiskPools : slice diskPool.t)
    : slice DiskPool.t * option error :=
  makeAndRange DiskPool.zero parseDiskPool rawDiskPools.

(** *** [parseDeploymentManifest] (lines 120-166) *)

Definition parseDeploymentManifest (depManifest : manifest.t)
    : Manifest.t * option error :=
  let deployment := boshDeploymentDefaults in
  let deployment := Manifest.with_Name (manifest.Name depManifest) deployment in
  let '(networks, err) := parseNetworkManifests (manifest.Networks depManifest) in
  match err with
  | Some err =>
      (Manifest.zero,
       Some (WrapErrorf err "Parsing networks: %#v"
               [ArgNetworks (manifest.Networks depManifest)]))
  | None =>
  let deployment := Manifest.with_Networks networks deployment in
  let '(resourcePools, err) :=
    parseResourcePoolManifests (manifest.ResourcePools depManifest) in
  match err with
  | Some err =>
      (Manifest.zero,
       Some (WrapErrorf err "Parsing resource_pools: %#v"
               [ArgResourcePools (manifest.ResourcePools depManifest)]))
  | None =>
  let deployment := Manifest.with_ResourcePools resourcePools deployment in
  let '(diskPools, err) := parseDiskPoolManifests (manifest.DiskPools depManifest) in
  match err with
  | Some err =>
      (Manifest.zero,
       Some (WrapErrorf err "Parsing disk_pools: %#v"
               [ArgDiskPools (manifest.DiskPools depManifest)]))
  | None =>
  let deployment := Manifest.with_DiskPools diskPools deployment in
  let '(jobs, err) := parseJobManifests (manifest.Jobs depManifest) in
  match err with
  | Some err =>
      (Manifest.zero,
       Some (WrapErrorf err "Parsing jobs: %#v" [ArgJobs (manifest.Jobs depManifest)]))
  | None =>
  let deployment := Manifest.with_Jobs jobs deployment in
  let '(properties, err) := BuildMap (manifest.Properties depManifest) in
  match err with
  | Some err =>
      (Manifest.zero,
       Some (WrapErrorf err "Parsing global manifest properties: %#v"
               [ArgProperties (manifest.Properties depManifest)]))
  | None =>
  let deployment := Manifest.with_Properties properties deployment in
  match UpdateSpec.UpdateWatchTime (manifest.Update depManifest) with
  | Some expression =>
      let '(updateWatchTime, err) := NewWatchTime expression in
      match err with
      | Some err => (Manifest.zero, Some (WrapError err "Parsing update watch time"))
      | None => (Manifest.with_Update (Update.mk updateWatchTime) deployment, None)
      end
  | None => (deployment, None)
  end
  end end end end end.

(** [stageFailure depManifest cause]: one of the six fallible steps of
    [parseDeploymentManifest], taken on its own on the document, returns the
    error [cause]. *)
Definition stageFailure (depManifest : manifest.t) (cause : error) : Prop :=
  snd (parseNetworkManifests (manifest.Networks depManifest)) = Some cause \/
  snd (parseResourcePoolManifests (manifest.ResourcePools depManifest)) = Some cause \/
  snd (parseDiskPoolManifests (manifest.DiskPools depManifest)) = Some cause \/
  snd (parseJobManifests (manifest.Jobs depManifest)) = Some cause \/
  snd (BuildMap (manifest.Properties depManifest)) = Some cause \/
  (exists expression,
     UpdateSpec.UpdateWatchTime (manifest.Update depManifest) = Some expression /\
     snd (NewWatchTime expression) = Some cause).

(** *** [Parse] (lines 99-118)

    The call to [p.logger.Debug] only logs the decoded document and is left
    out. *)

Definition Parse (path : string) : Manifest.t * option error :=
  let '(contents, err) := ReadFile path in
  match err with
  | Some err => (Manifest.zero, Some (WrapErrorf err "Reading file %s" [ArgString path]))
  | None =>
  let '(comboManifest, err) := Unmarshal contents manifest.zero in
  match err with
  | Some err => (Manifest.zero, Some (WrapError err "Unmarshalling BOSH deployment manifest"))
  | None =>
  let '(deploymentManifest, err) := parseDeploymentManifest comboManifest in
  match err with
  | Some err => (Manifest.zero, Some (WrapError err "Unmarshalling BOSH deployment manifest"))
  | None => (deploymentManifest, None)
  end
  end end.

End Parser.

(** ** Collaborators of the parser that are specified but not part of parser.go *)

(** The Go name of the runtime type of a dynamic value, as [%T] prints it. *)
Definition typeName (v : dyn) : string :=
  match v with
  | DNil => "<nil>"
  | DString _ => "string"
  | DInt _ => "int"
  | DFloat _ => "float64"
  | DBool _ => "bool"
  | DSlice _ => "[]interface {}"
  | DMap _ => "map[interface {}]interface {}"
  | DOther type_name => type_name
  end.

Definition hasKey (k : string) (m : list (string * ptree)) : bool :=
  existsb (fun kv => String.eqb (fst kv) k) m.

Section BuildChildren.

Variable build : dyn -> ptree * option error.

Fixpoint buildSeq (l : list dyn) : list ptree * option error :=
  match l with
  | [] => ([], None)
  | v :: rest =>
      match build v with
      | (_, Some err) => ([], Some err)
      | (t, None) =>
          match buildSeq rest with
          | (_, Some err) => ([], Some err)
          | (ts, None) => (t :: ts, None)
          end
      end
  end.

Fixpoint buildEntries (m : list (dyn * dyn)) (acc : list (string * ptree))
    : list (string * ptree) * option error :=
  match m with
  | [] => (acc, None)
  | (k, v) :: rest =>
      match k with
      | DString name =>
          match build v with
          | (_, Some err) => ([], Some err)
          | (t, None) =>
              if hasKey name acc
              then ([], Some (Errorf ("key collision: " ++ name)))
              else buildEntries rest (acc ++ [(name, t)])
          end
      | _ => ([], Some (Errorf ("unsupported key type: " ++ typeName k)))
      end
  end.

End BuildChildren.

(** Modelled from the spec: the property tree builder [Build] of section 4.3
    ([biproperty.Build], package [common/property], is not among the source
    files). Mappings need string keys and no two equal keys, sequences are
    built element by element, scalars are copied, any other runtime shape is
    an "unsupported value type" error. *)
Fixpoint Build (v : dyn) : ptree * option error :=
  match v with
  | DNil => (PNull, None)
  | DString s => (PString s, None)
  | DInt z => (PInt z, None)
  | DFloat bits => (PFloat bits, None)
  | DBool b => (PBool b, None)
  | DSlice l =>
      match buildSeq Build l with
      | (_, Some err) => (PNull, Some err)
      | (ts, None) => (PSeq ts, None)
      end
  | DMap m =>
      match buildEntries Build m [] with
      | (_, Some err) => (PNull, Some err)
      | (kvs, None) => (PMap kvs, None)
      end
  | DOther type_name => (PNull, Some (Errorf ("unsupported value type: " ++ type_name)))
  end.

(** Modelled from the spec: [biproperty.BuildMap] (package [common/property],
    not among the source files), the builder applied to a property block. A
    [nil] block gives an empty mapping, not an error (section 4.3, last
    bullet). *)
Definition BuildMap (rawProperties : rawmap) : Map * option error :=
  match rawProperties with
  | None => (Some [], None)
  | Some m =>
      match buildEntries Build m [] with
      | (_, Some err) => (None, Some err)
      | (kvs, None) => (Some kvs, None)
      end
  end.

(** Splitting a string at every occurrence of a separator character. *)
Fixpoint splitOn (sep : ascii) (s : string) : list string :=
  match s with
  | EmptyString => [EmptyString]
  | String c rest =>
      if Ascii.eqb c sep then EmptyString :: splitOn sep rest
      else match splitOn sep rest with
           | [] => [String c EmptyString]
           | part :: parts => String c part :: parts
           end
  end.

Definition digitValue (c : ascii) : option Z :=
  let n := Z.of_nat (nat_of_ascii c) in
  if ((48 <=? n) && (n <=? 57))%Z then Some (n - 48)%Z else None.

Fixpoint parseDigits (s : string) (acc : Z) : option Z :=
  match s with
  | EmptyString => Some acc
  | String c rest =>
      match digitValue c with
      | Some d => parseDigits rest (10 * acc + d)%Z
      | None => None
      end
  end.

(** A non-negative integer literal: one or more decimal digits. *)
Definition parseBound (s : string) : option Z :=
  match s with
  | EmptyString => None
  | _ => parseDigits s 0
  end.

(** Modelled from the spec: the watch time parser of section 4.4
    ([NewWatchTime], file [watch_time.go] of the package, is not among the
    source files). The expression is one integer literal, read as the end
    with the start fixed at 0, or two of them separated by ["-"] with
    start <= end. *)
Definition NewWatchTime (expression : string) : WatchTime.t * option error :=
  match splitOn "-"%char expression with
  | [endText] =>
      match parseBound endText with
      | Some e => (WatchTime.mk 0 e, None)
      | None => (WatchTime.zero, Some (Errorf ("malformed watch time: " ++ endText)))
      end
  | [startText; endText] =>
      match parseBound startText with
      | None => (WatchTime.zero, Some (Errorf ("malformed watch time: " ++ startText)))
      | Some s =>
          match parseBound endText with
          | None => (WatchTime.zero, Some (Errorf ("malformed watch time: " ++ endText)))
          | Some e =>
              if (s <=? e)%Z then (WatchTime.mk s e, None)
              else (WatchTime.zero,
                    Some (Errorf ("invalid interval: " ++ startText ++ " > " ++ endText)))
          end
      end
  | _ => (WatchTime.zero, Some (Errorf ("malformed watch time: " ++ expression)))
  end.


(** ** The fake command of the command tests ([cmd/fakes/fake_command.go])

    [FakeCommand] has pointer receivers: [Run] is a function from the command
    before the call to the command after it and the returned error.
    [biui.Stage] is an interface of package [ui]; the fake only stores the
    value, so its type is a parameter and a [nil] stage is [None]. *)

Module fakes.
Section FakeCommand.

Variable biui_Stage : Type.

Record FakeCommand : Type := mk {
  name : string;
  Stage : option biui_Stage;
  Args : slice string;
  PresetError : option error
}.

Definition NewFakeCommand (name : string) : FakeCommand :=
  mk name None (Some []) None.

Definition Name (f : FakeCommand) : string := name f.

Definition Run (f : FakeCommand) (stage : option biui_Stage) (args : slice string)
    : FakeCommand * option error :=
  let f := mk (name f) stage (Args f) (PresetError f) in
  let f := mk (name f) (Stage f) args (PresetError f) in
  (f, PresetError f).

Definition GetArgs (f : FakeCommand) : slice string := Args f.

(** A test sets [PresetError] on the command it built. *)
Definition setPresetError (err : option error) (f : FakeCommand) : FakeCommand :=
  mk (name f) (Stage f) (Args f) err.

(** A series of [Run] calls on one command: the command after the last call
    and the errors returned, in call order. *)
Fixpoint runAll (f : FakeCommand) (calls : list (option biui_Stage * slice string))
    : FakeCommand * list (option error) :=
  match calls with
  | [] => (f, [])
  | (stage, args) :: calls' =>
      let '(f', err) := Run f stage args in
      let '(f'', errs) := runAll f' calls' in
      (f'', err :: errs)
  end.

End FakeCommand.

Arguments mk {biui_Stage} name Stage Args PresetError.
Arguments name {biui_Stage} f.
Arguments Stage {biui_Stage} f.
Arguments Args {biui_Stage} f.
Arguments PresetError {biui_Stage} f.
Arguments Name {biui_Stage} f.
Arguments Run {biui_Stage} f stage args.
Arguments GetArgs {biui_Stage} f.
Arguments setPresetError {biui_Stage} err f.
Arguments runAll {biui_Stage} f calls.

End fakes.

(** The decimal literal of a natural number, digit by digit from the
    standard library's decimal representation; used to state what the watch
    time parser does on every integer literal. *)
Definition decimal (n : nat) : string :=
  DecimalString.NilEmpty.string_of_uint (Nat.to_uint n).

(** ** Sample documents and test doubles *)

Definition sampleNetwork : network.t :=
  network.mk "default" "dynamic" None "" "" "" None.

Definition sampleJob : job.t :=
  job.mk "web" 2 "" (Some [releaseJobRef.mk "app" "rel1"]) None 0 "" None.

(** The end-to-end document of the specification's section 8. *)
Definition sampleManifest : manifest.t :=
  manifest.mk "sample" UpdateSpec.zero
    (Some [sampleNetwork]) None None (Some [sampleJob])
    (Some [(DString "timeout", DInt 30);
           (DString "nested", DMap [(DString "retries", DInt 3)])]).

(** A property block that the builder rejects: its key is a boolean. *)
Definition badProperties : rawmap := Some [(DBool true, DInt 1)].

Definition sampleResourcePool : resourcePool.t :=
  resourcePool.mk "" "" (Some [(DString "ram", DInt 2048)]) None.

Definition sampleDiskPool : diskPool.t :=
  diskPool.mk "" (-1) None.

(** The sample document with a watch-time expression. *)
Definition withWatchTime (expression : string) (m : manifest.t) : manifest.t :=
  manifest.mk (manifest.Name m) (UpdateSpec.mk (Some expression))
    (manifest.Networks m) (manifest.ResourcePools m) (manifest.DiskPools m)
    (manifest.Jobs m) (manifest.Properties m).

(** A job that asks for a negative number of instances. *)
Definition negativeJob : job.t :=
  job.mk "worker" (-1) "errand" None None 0 "" None.

(** Entries whose property blocks the builder rejects. *)
Definition brokenNetwork : network.t :=
  network.mk "public" "vip" badProperties "" "" "" None.

Definition brokenResourcePool : resourcePool.t :=
  resourcePool.mk "small" "default" None badProperties.

Definition brokenDiskPool : diskPool.t :=
  diskPool.mk "disks" 1024 badProperties.

Definition brokenJob : job.t :=
  job.mk "db" 1 "service" None None 0 "" badProperties.

(** A document in which the networks and the jobs sections both fail. *)
Definition brokenManifest : manifest.t :=
  manifest.mk "broken" UpdateSpec.zero
    (Some [sampleNetwork; brokenNetwork]) None None (Some [brokenJob]) None.

(** A job with every block present. *)
Definition fullJob : job.t :=
  job.mk "api" 3 "service"
    (Some [releaseJobRef.mk "app" "rel1"; releaseJobRef.mk "proxy" ""])
    (Some [jobNetwork.mk "default" (Some ["dns"; "gateway"]) None;
           jobNetwork.mk "public" None (Some ["10.0.0.5"])])
    10 "fast-disks" (Some [(DString "port", DInt 80)]).

(** A file system that holds one document, and a decoder that yields a given
    document (in the manner of the fakes of the test suites). *)
Definition fakeReadFile (path : string) : list Byte.byte * option error :=
  ([], None).

Definition fakeUnmarshal (doc : manifest.t)
    (contents : list Byte.byte) (into : manifest.t) : manifest.t * option error :=
  (doc, None).

(** * Properties *)

(** ** The [make]-then-[range] loop *)

Section RangeLoop.

Context {A B : Type} (body : A -> outcome B).

Lemma rangeLoop_length rest : forall i out,
  length (fst (rangeLoop body i rest out)) = length out.
Proof.
  induction rest as [|x rest IH]; intros i out; simpl; [done|].
  destruct (body x) as [b|e]; simpl; [|done].
  by rewrite IH, length_insert.
Qed.

(** A run without error has assigned every index it visited, in order, and
    has left the other indices alone. *)
Lemma rangeLoop_success rest : forall i out out',
  rangeLoop body i rest out = (out', None) ->
  (i + length rest <= length out)%nat ->
  (forall j, (j < i)%nat -> out' !! j = out !! j) /\
  (forall k x, rest !! k = Some x ->
     exists b, body x = Assign b /\ out' !! (i + k)%nat = Some b).
Proof.
  induction rest as [|x rest IH]; intros i out out' Hrun Hlen; simpl in *.
  - injection Hrun as <-. split; [done|]. intros k x Hk. by destruct k.
  - destruct (body x) as [b|e] eqn:Hbody; [|discriminate].
    apply IH in Hrun as [Hlow Hvisited]; [|rewrite length_insert; lia].
    split.
    + intros j Hj. rewrite Hlow by lia. apply list_lookup_insert_ne. lia.
    + intros [|k] y Hk; simpl in Hk.
      * injection Hk as <-. exists b. split; [done|].
        rewrite Nat.add_0_r, Hlow by lia. apply list_lookup_insert_eq. lia.
      * destruct (Hvisited k y Hk) as (b' & Hb' & Hout).
        exists b'. split; [done|]. by replace (i + S k)%nat with (S i + k)%nat by lia.
Qed.

(** The loop returns an error exactly when some entry's body returns one
    after all earlier bodies have assigned; that first error is returned. *)
Lemma rangeLoop_failure rest : forall i out e,
  snd (rangeLoop body i rest out) = Some e <->
  exists pre x post,
    rest = pre ++ x :: post /\
    Forall (fun y => exists b, body y = Assign b) pre /\
    body x = Return e.
Proof.
  induction rest as [|x rest IH]; intros i out e; simpl.
  - split; [done|]. intros (pre & y & post & Heq & _). by destruct pre.
  - destruct (body x) as [b|e'] eqn:Hbody; simpl.
    + rewrite IH. split.
      * intros (pre & y & post & -> & Hpre & Hy).
        exists (x :: pre), y, post. repeat split; [|done]. constructor; eauto.
      * intros (pre & y & post & Heq & Hpre & Hy). destruct pre as [|p pre].
        { simpl in Heq. injection Heq as -> ->. congruence. }
        simpl in Heq. injection Heq as -> ->. inversion Hpre; subst.
        exists pre, y, post. done.
    + split.
      * intros [= ->]. exists [], x, rest. repeat split; [constructor|done].
      * intros (pre & y & post & Heq & Hpre & Hy). destruct pre as [|p pre].
        { simpl in Heq. injection Heq as -> ->. congruence. }
        simpl in Heq. injection Heq as -> ->. inversion Hpre as [|? ? [b Hb] ?]; subst.
        congruence.
Qed.

Variable zero : B.

Lemma makeAndRange_len raw : len (fst (makeAndRange zero body raw)) = len raw.
Proof.
  unfold makeAndRange.
  pose proof (rangeLoop_length (elems raw) 0 (replicate (len raw) zero)) as Hlen.
  destruct (rangeLoop body 0 (elems raw) (replicate (len raw) zero)) as [out err].
  simpl in *. unfold len at 1. simpl. by rewrite Hlen, length_replicate.
Qed.

Lemma makeAndRange_allocated raw : exists out, fst (makeAndRange zero body raw) = Some out.
Proof.
  unfold makeAndRange.
  destruct (rangeLoop body 0 (elems raw) (replicate (len raw) zero)) as [out err].
  by exists out.
Qed.

Lemma makeAndRange_success raw out :
  makeAndRange zero body raw = (out, None) ->
  len out = len raw /\
  forall i x, elems raw !! i = Some x ->
    exists y, elems out !! i = Some y /\ body x = Assign y.
Proof.
  intros Hrun. split.
  - pose proof (makeAndRange_len raw) as Hlen. by rewrite Hrun in Hlen.
  - unfold makeAndRange in Hrun.
    destruct (rangeLoop body 0 (elems raw) (replicate (len raw) zero))
      as [filled err] eqn:Hloop.
    injection Hrun as <- ->.
    apply rangeLoop_success in Hloop as [_ Hvisited];
      [|rewrite length_replicate; unfold len; lia].
    intros i x Hi. destruct (Hvisited i x Hi) as (b & Hb & Hout).
    exists b. done.
Qed.

Lemma makeAndRange_failure raw e :
  snd (makeAndRange zero body raw) = Some e <->
  exists pre x post,
    elems raw = pre ++ x :: post /\
    Forall (fun y => exists b, body y = Assign b) pre /\
    body x = Return e.
Proof.
  rewrite <- (rangeLoop_failure (elems raw) 0 (replicate (len raw) zero) e).
  unfold makeAndRange.
  by destruct (rangeLoop body 0 (elems raw) (replicate (len raw) zero)).
Qed.

(** When every body assigns, the loop succeeds. *)
Lemma makeAndRange_total raw :
  Forall (fun y => exists b, body y = Assign b) (elems raw) ->
  snd (makeAndRange zero body raw) = None.
Proof.
  intros Hall. destruct (snd (makeAndRange zero body raw)) as [e|] eqn:Herr; [|done].
  apply makeAndRange_failure in Herr as (pre & x & post & Heq & _ & Hx).
  rewrite Heq in Hall. apply Forall_app in Hall as [_ Hall].
  inversion Hall as [|? ? [b Hb] ?]; subst. congruence.
Qed.

End RangeLoop.

(** ** The section parsers *)

Section SectionParsers.

Variable buildMap : rawmap -> Map * option error.

(** What one iteration of each loop does, in terms of the builder. *)

Lemma parseNetwork_outcome x :
  parseNetwork buildMap x =
    match buildMap (network.CloudProperties x) with
    | (_, Some err) =>
        Return (WrapErrorf err "Parsing network '%s' cloud_properties: %#v"
                  [ArgString (network.Name x); ArgProperties (network.CloudProperties x)])
    | (cloudProperties, None) =>
        Assign (Network.mk (network.Name x) (network.Type_ x) cloudProperties
                  (network.IP x) (network.Netmask x) (network.Gateway x) (network.DNS x))
    end.
Proof. unfold parseNetwork. by destruct (buildMap _) as [cp [err|]]. Qed.

Lemma parseResourcePool_outcome x :
  parseResourcePool buildMap x =
    match buildMap (resourcePool.CloudProperties x) with
    | (_, Some err) =>
        Return (WrapErrorf err "Parsing resource_pool '%s' cloud_properties: %#v"
                  [ArgString (resourcePool.Name x);
                   ArgProperties (resourcePool.CloudProperties x)])
    | (cloudProperties, None) =>
        match buildMap (resourcePool.Env x) with
        | (_, Some err) =>
            Return (WrapErrorf err "Parsing resource_pool '%s' env: %#v"
                      [ArgString (resourcePool.Name x); ArgProperties (resourcePool.Env x)])
        | (env, None) =>
            Assign (ResourcePool.mk (resourcePool.Name x) (resourcePool.Network x)
                      cloudProperties env)
        end
    end.
Proof.
  unfold parseResourcePool. destruct (buildMap (resourcePool.CloudProperties x)) as [cp [err|]]; [done|].
  by destruct (buildMap (resourcePool.Env x)) as [env [err|]].
Qed.

Lemma parseDiskPool_outcome x :
  parseDiskPool buildMap x =
    match buildMap (diskPool.CloudProperties x) with
    | (_, Some err) =>
        Return (WrapErrorf err "Parsing disk_pool '%s' cloud_properties: %#v"
                  [ArgString (diskPool.Name x); ArgProperties (diskPool.CloudProperties x)])
    | (cloudProperties, None) =>
        Assign (DiskPool.mk (diskPool.Name x) (diskPool.DiskSize x) cloudProperties)
    end.
Proof. unfold parseDiskPool. by destruct (buildMap _) as [cp [err|]]. Qed.

(** The scalar fields of a parsed job are those of the raw job. *)
Lemma parseJob_scalars x y :
  parseJob buildMap x = Assign y ->
  Job.Name y = job.Name x /\
  Job.Instances y = job.Instances x /\
  Job.Lifecycle y = job.Lifecycle x /\
  Job.PersistentDisk y = job.PersistentDisk x /\
  Job.PersistentDiskPool y = job.PersistentDiskPool x.
Proof.
  unfold parseJob.
  destruct (job.Templates x), (job.Networks x), (job.Properties x);
    try destruct (buildMap _) as [properties [err|]];
    intros [= <-]; done.
Qed.

Lemma parseNetwork_Name x y :
  parseNetwork buildMap x = Assign y -> Network.Name y = network.Name x.
Proof.
  rewrite parseNetwork_outcome.
  destruct (buildMap _) as [cp [err|]]; intros [= <-]; done.
Qed.

Lemma parseResourcePool_scalars x y :
  parseResourcePool buildMap x = Assign y ->
  ResourcePool.Name y = resourcePool.Name x /\
  ResourcePool.Network y = resourcePool.Network x.
Proof.
  rewrite parseResourcePool_outcome.
  destruct (buildMap (resourcePool.CloudProperties x)) as [cp [err|]]; [done|].
  destruct (buildMap (resourcePool.Env x)) as [env [err|]]; intros [= <-]; done.
Qed.

Lemma parseDiskPool_scalars x y :
  parseDiskPool buildMap x = Assign y ->
  DiskPool.Name y = diskPool.Name x /\
  DiskPool.DiskSize y = diskPool.DiskSize x.
Proof.
  rewrite parseDiskPool_outcome.
  destruct (buildMap _) as [cp [err|]]; intros [= <-]; done.
Qed.

(** C3. Each of the four section parsers, when it returns no error, returns
    a slice of the length of its input in which the entry at index [i] is the
    one that the loop body builds from the input entry at index [i]; in
    particular the two carry the same name, so declaration order is kept. *)
Theorem section_parsers_index_correspondence :
  (forall raw out, parseNetworkManifests buildMap raw = (out, None) ->
     len out = len raw /\
     forall i x, elems raw !! i = Some x ->
       exists y, elems out !! i = Some y /\
                 parseNetwork buildMap x = Assign y /\
                 Network.Name y = network.Name x) /\
  (forall raw out, parseResourcePoolManifests buildMap raw = (out, None) ->
     len out = len raw /\
     forall i x, elems raw !! i = Some x ->
       exists y, elems out !! i = Some y /\
                 parseResourcePool buildMap x = Assign y /\
                 ResourcePool.Name y = resourcePool.Name x) /\
  (forall raw out, parseDiskPoolManifests buildMap raw = (out, None) ->
     len out = len raw /\
     forall i x, elems raw !! i = Some x ->
       exists y, elems out !! i = Some y /\
                 parseDiskPool buildMap x = Assign y /\
                 DiskPool.Name y = diskPool.Name x) /\
  (forall raw out, parseJobManifests buildMap raw = (out, None) ->
     len out = len raw /\
     forall i x, elems raw !! i = Some x ->
       exists y, elems out !! i = Some y /\
                 parseJob buildMap x = Assign y /\
                 Job.Name y = job.Name x).
Proof.
  split; [|split; [|split]];
    intros raw out Hrun; apply makeAndRange_success in Hrun as [Hlen Hentries];
    (split; [done|]);
    intros i x Hi; destruct (Hentries i x Hi) as (y & Hy & Hbody);
    exists y; (split; [done|]); (split; [done|]).
  - by apply parseNetwork_Name.
  - by apply parseResourcePool_scalars in Hbody as [? _].
  - by apply parseDiskPool_scalars in Hbody as [? _].
  - by apply parseJob_scalars in Hbody as [? _].
Qed.


Lemma parseResourcePool_assigns x :
  (exists b, parseResourcePool buildMap x = Assign b) <->
  snd (buildMap (resourcePool.CloudProperties x)) = None /\
  snd (buildMap (resourcePool.Env x)) = None.
Proof.
  rewrite parseResourcePool_outcome.
  destruct (buildMap (resourcePool.CloudProperties x)) as [cp [err|]]; simpl.
  { split; [by intros [b ?] | by intros [? _]]. }
  destruct (buildMap (resourcePool.Env x)) as [env [err|]]; simpl.
  { split; [by intros [b ?] | by intros [_ ?]]. }
  split; [done | eauto].
Qed.

Lemma parseDiskPool_assigns x :
  (exists b, parseDiskPool buildMap x = Assign b) <->
  snd (buildMap (diskPool.CloudProperties x)) = None.
Proof.
  rewrite parseDiskPool_outcome.
  destruct (buildMap (diskPool.CloudProperties x)) as [cp [err|]]; simpl.
  { split; [by intros [b ?] | done]. }
  split; [done | eauto].
Qed.

(** A loop returns an error exactly when some entry's body does not assign. *)
Lemma makeAndRange_fails_iff {A B} (zero : B) (body : A -> outcome B) raw :
  (exists e, snd (makeAndRange zero body raw) = Some e) <->
  exists x, x ∈ elems raw /\ ~ exists b, body x = Assign b.
Proof.
  split.
  - intros [e He]. apply makeAndRange_failure in He as (pre & x & post & Heq & _ & Hx).
    exists x. split.
    + rewrite Heq. apply elem_of_app. right. apply elem_of_cons. by left.
    + intros [b Hb]. congruence.
  - intros (x & Hin & Hx).
    destruct (snd (makeAndRange zero body raw)) as [e|] eqn:Herr; [by exists e|].
    exfalso. apply Hx.
    apply list_elem_of_lookup in Hin as [i Hi].
    destruct (makeAndRange_success body zero raw (fst (makeAndRange zero body raw)))
      as [_ Hentries].
    { rewrite <- Herr. apply surjective_pairing. }
    destruct (Hentries i x Hi) as (y & _ & Hy). by exists y.
Qed.

(** C10. Resource pool and disk pool parsing return an error exactly when
    the property builder fails on the cloud_properties (or, for a resource
    pool, the env) block of some entry; the error returned is the builder's
    error on the first such entry, wrapped with that entry's name and block.
    When no builder call fails, every name, network reference and disk size
    is copied as it is, whatever its value. *)
Theorem pool_parsers_fail_only_on_properties :
  (forall raw,
     (exists e, snd (parseResourcePoolManifests buildMap raw) = Some e) <->
     (exists x, x ∈ elems raw /\
        (snd (buildMap (resourcePool.CloudProperties x)) <> None \/
         snd (buildMap (resourcePool.Env x)) <> None))) /\
  (forall raw,
     (exists e, snd (parseDiskPoolManifests buildMap raw) = Some e) <->
     (exists x, x ∈ elems raw /\
        snd (buildMap (diskPool.CloudProperties x)) <> None)) /\
  (forall raw pre x post err,
     elems raw = pre ++ x :: post ->
     Forall (fun y => snd (buildMap (resourcePool.CloudProperties y)) = None /\
                      snd (buildMap (resourcePool.Env y)) = None) pre ->
     (snd (buildMap (resourcePool.CloudProperties x)) = Some err ->
      snd (parseResourcePoolManifests buildMap raw) =
        Some (WrapErrorf err "Parsing resource_pool '%s' cloud_properties: %#v"
                [ArgString (resourcePool.Name x);
                 ArgProperties (resourcePool.CloudProperties x)])) /\
     (snd (buildMap (resourcePool.CloudProperties x)) = None ->
      snd (buildMap (resourcePool.Env x)) = Some err ->
      snd (parseResourcePoolManifests buildMap raw) =
        Some (WrapErrorf err "Parsing resource_pool '%s' env: %#v"
                [ArgString (resourcePool.Name x);
                 ArgProperties (resourcePool.Env x)]))) /\
  (forall raw pre x post err,
     elems raw = pre ++ x :: post ->
     Forall (fun y => snd (buildMap (diskPool.CloudProperties y)) = None) pre ->
     snd (buildMap (diskPool.CloudProperties x)) = Some err ->
     snd (parseDiskPoolManifests buildMap raw) =
       Some (WrapErrorf err "Parsing disk_pool '%s' cloud_properties: %#v"
               [ArgString (diskPool.Name x);
                ArgProperties (diskPool.CloudProperties x)])) /\
  (forall raw out, parseResourcePoolManifests buildMap raw = (out, None) ->
     forall i x, elems raw !! i = Some x ->
       exists y, elems out !! i = Some y /\
                 ResourcePool.Name y = resourcePool.Name x /\
                 ResourcePool.Network y = resourcePool.Network x) /\
  (forall raw out, parseDiskPoolManifests buildMap raw = (out, None) ->
     forall i x, elems raw !! i = Some x ->
       exists y, elems out !! i = Some y /\
                 DiskPool.Name y = diskPool.Name x /\
                 DiskPool.DiskSize y = diskPool.DiskSize x).
Proof.
  split; [|split; [|split; [|split; [|split]]]].
  - intros raw. unfold parseResourcePoolManifests. rewrite makeAndRange_fails_iff.
    split; intros (x & Hin & Hx); exists x; (split; [done|]).
    + rewrite parseResourcePool_assigns in Hx.
      destruct (snd (buildMap (resourcePool.CloudProperties x))); [by left|].
      destruct (snd (buildMap (resourcePool.Env x))); [by right|].
      by destruct Hx.
    + rewrite parseResourcePool_assigns. intros [Hcp Henv]. by destruct Hx.
  - intros raw. unfold parseDiskPoolManifests. rewrite makeAndRange_fails_iff.
    split; intros (x & Hin & Hx); exists x; (split; [done|]);
      by rewrite parseDiskPool_assigns in *.
  - intros raw pre x post err Heq Hpre.
    assert (Forall (fun y => exists b, parseResourcePool buildMap y = Assign b) pre) as Hok.
    { eapply Forall_impl; [exact Hpre|]. intros y Hy. by apply parseResourcePool_assigns. }
    split; [intros Hcp | intros Hcp Henv];
      apply makeAndRange_failure; exists pre, x, post; (split; [done|]); (split; [done|]);
      rewrite parseResourcePool_outcome.
    + destruct (buildMap (resourcePool.CloudProperties x)) as [cp o]. simpl in Hcp. by subst o.
    + destruct (buildMap (resourcePool.CloudProperties x)) as [cp o]. simpl in Hcp. subst o.
      destruct (buildMap (resourcePool.Env x)) as [env o]. simpl in Henv. by subst o.
  - intros raw pre x post err Heq Hpre Hcp.
    apply makeAndRange_failure. exists pre, x, post. split; [done|]. split.
    + eapply Forall_impl; [exact Hpre|]. intros y Hy. by apply parseDiskPool_assigns.
    + rewrite parseDiskPool_outcome.
      destruct (buildMap (diskPool.CloudProperties x)) as [cp o]. simpl in Hcp. by subst o.
  - intros raw out Hrun i x Hi.
    apply makeAndRange_success in Hrun as [_ Hentries].
    destruct (Hentries i x Hi) as (y & Hy & Hbody). exists y. split; [done|].
    by apply parseResourcePool_scalars.
  - intros raw out Hrun i x Hi.
    apply makeAndRange_success in Hrun as [_ Hentries].
    destruct (Hentries i x Hi) as (y & Hy & Hbody). exists y. split; [done|].
    by apply parseDiskPool_scalars.
Qed.

(** C7 (as amended). The lifecycle tag of a parsed job is the raw entry's tag
    converted to [JobLifecycle] and nothing else: an absent tag, which the
    decoder leaves as the empty string, stays the empty string. *)
Theorem job_lifecycle_copied raw out i x y :
  parseJobManifests buildMap raw = (out, None) ->
  elems raw !! i = Some x ->
  elems out !! i = Some y ->
  Job.Lifecycle y = job.Lifecycle x /\
  (job.Lifecycle x = "" -> Job.Lifecycle y = "").
Proof.
  intros Hrun Hx Hy. apply makeAndRange_success in Hrun as [_ Hentries].
  destruct (Hentries i x Hx) as (y' & Hy' & Hbody).
  assert (y' = y) as -> by congruence.
  apply parseJob_scalars in Hbody as (_ & _ & Hlife & _).
  split; [done|]. congruence.
Qed.

(** C8 (as amended). The instance count of a parsed job is the raw entry's
    count, copied without a range check; it is negative when the document's
    is. *)
Theorem job_instances_copied raw out i x y :
  parseJobManifests buildMap raw = (out, None) ->
  elems raw !! i = Some x ->
  elems out !! i = Some y ->
  Job.Instances y = job.Instances x.
Proof.
  intros Hrun Hx Hy. apply makeAndRange_success in Hrun as [_ Hentries].
  destruct (Hentries i x Hx) as (y' & Hy' & Hbody).
  assert (y' = y) as -> by congruence.
  by apply parseJob_scalars in Hbody as (_ & ? & _).
Qed.

End SectionParsers.

(** Two loop bodies that agree on every entry of the input run alike. *)
Lemma rangeLoop_ext {A B} (body1 body2 : A -> outcome B) rest : forall i out,
  Forall (fun x => body1 x = body2 x) rest ->
  rangeLoop body1 i rest out = rangeLoop body2 i rest out.
Proof.
  induction rest as [|x rest IH]; intros i out Hagree; simpl; [done|].
  inversion Hagree as [|? ? Hx Hrest]; subst. rewrite Hx.
  destruct (body2 x) as [b|e]; [by apply IH | done].
Qed.

Lemma makeAndRange_ext {A B} (zero : B) (body1 body2 : A -> outcome B) raw :
  Forall (fun x => body1 x = body2 x) (elems raw) ->
  makeAndRange zero body1 raw = makeAndRange zero body2 raw.
Proof. intros Hagree. unfold makeAndRange. by rewrite (rangeLoop_ext body1 body2). Qed.

(** A job entry without a properties block is parsed without the builder. *)
Lemma parseJob_nil_properties x :
  job.Properties x = None ->
  forall buildMap,
    exists y, parseJob buildMap x = Assign y /\
              Job.Properties y = None /\
              forall buildMap', parseJob buildMap' x = Assign y.
Proof.
  intros Hnil buildMap. unfold parseJob. rewrite Hnil.
  eexists. split; [reflexivity|]. split; [|done].
  by destruct (job.Templates x), (job.Networks x).
Qed.

(** C9. For a job entry whose properties block is [nil] the parsed job does
    not depend on the property builder at all, so the entry cannot make job
    parsing fail, and its property tree is [nil], which is not the allocated
    empty mapping. A [nil] templates or networks sequence likewise gives a
    [nil] sequence in the parsed job. *)
Theorem absent_job_blocks_stay_nil :
  (forall x, job.Properties x = None ->
     forall buildMap,
       exists y, parseJob buildMap x = Assign y /\
                 (forall buildMap', parseJob buildMap' x = Assign y) /\
                 Job.Properties y = None /\
                 Job.Properties y <> Some []) /\
  (forall raw, Forall (fun x => job.Properties x = None) (elems raw) ->
     forall buildMap,
       snd (parseJobManifests buildMap raw) = None /\
       forall buildMap', parseJobManifests buildMap' raw = parseJobManifests buildMap raw) /\
  (forall buildMap x y, parseJob buildMap x = Assign y ->
     (job.Templates x = None -> Job.Templates y = None) /\
     (job.Networks x = None -> Job.Networks y = None)).
Proof.
  split; [|split].
  - intros x Hnil buildMap.
    destruct (parseJob_nil_properties x Hnil buildMap) as (y & Hy & Hprops & Hany).
    exists y. rewrite Hprops. done.
  - intros raw Hnil buildMap. split.
    + apply makeAndRange_total. eapply Forall_impl; [exact Hnil|].
      intros x Hx. destruct (parseJob_nil_properties x Hx buildMap) as (y & Hy & _).
      by exists y.
    + intros buildMap'. apply makeAndRange_ext. eapply Forall_impl; [exact Hnil|].
      intros x Hx. destruct (parseJob_nil_properties x Hx buildMap) as (y & Hy & _ & Hany).
      by rewrite Hy, Hany.
  - intros buildMap x y. unfold parseJob.
    destruct (job.Templates x), (job.Networks x), (job.Properties x);
      try destruct (buildMap _) as [properties [err|]];
      intros [= <-]; done.
Qed.

(** ** The orchestrator *)

Section Orchestrator.

Variable ReadFile : string -> list Byte.byte * option error.
Variable Unmarshal : list Byte.byte -> manifest.t -> manifest.t * option error.
Variable buildMap : rawmap -> Map * option error.
Variable newWatchTime : string -> WatchTime.t * option error.

(** Runs the orchestrator symbolically: one case per outcome of each step. *)
Ltac run_stages m :=
  unfold parseDeploymentManifest, stageFailure;
  destruct (parseNetworkManifests buildMap (manifest.Networks m)) as [networks [e1|]];
  [|destruct (parseResourcePoolManifests buildMap (manifest.ResourcePools m))
      as [resourcePools [e2|]];
    [|destruct (parseDiskPoolManifests buildMap (manifest.DiskPools m))
        as [diskPools [e3|]];
      [|destruct (parseJobManifests buildMap (manifest.Jobs m)) as [jobs [e4|]];
        [|destruct (buildMap (manifest.Properties m)) as [properties [e5|]];
          [|destruct (UpdateSpec.UpdateWatchTime (manifest.Update m))
              as [expression|] eqn:Hsupplied;
            [destruct (newWatchTime expression) as [updateWatchTime [e6|]] eqn:Hwatch|]]]]]];
  simpl.

(** A successful run of the orchestrator, field by field. *)
Lemma parseDeploymentManifest_success m d :
  parseDeploymentManifest buildMap newWatchTime m = (d, None) ->
  Manifest.Name d = manifest.Name m /\
  parseNetworkManifests buildMap (manifest.Networks m) = (Manifest.Networks d, None) /\
  parseResourcePoolManifests buildMap (manifest.ResourcePools m)
    = (Manifest.ResourcePools d, None) /\
  parseDiskPoolManifests buildMap (manifest.DiskPools m) = (Manifest.DiskPools d, None) /\
  parseJobManifests buildMap (manifest.Jobs m) = (Manifest.Jobs d, None) /\
  buildMap (manifest.Properties m) = (Manifest.Properties d, None) /\
  match UpdateSpec.UpdateWatchTime (manifest.Update m) with
  | None => Manifest.Update d = Manifest.Update boshDeploymentDefaults
  | Some expression =>
      newWatchTime expression = (Update.UpdateWatchTime (Manifest.Update d), None)
  end.
Proof.
  run_stages m; intros [= <-]; done.
Qed.

(** [Parse] succeeds only through a successful read, decode and
    [parseDeploymentManifest]. *)
Lemma Parse_success path d :
  Parse ReadFile Unmarshal buildMap newWatchTime path = (d, None) ->
  exists contents m,
    ReadFile path = (contents, None) /\
    Unmarshal contents manifest.zero = (m, None) /\
    parseDeploymentManifest buildMap newWatchTime m = (d, None).
Proof.
  unfold Parse. destruct (ReadFile path) as [contents [e|]]; simpl; [intros [=]|].
  destruct (Unmarshal contents manifest.zero) as [m [e|]] eqn:Hdecode;
    simpl; [intros [=]|].
  destruct (parseDeploymentManifest buildMap newWatchTime m) as [d' [e|]] eqn:Hrun;
    simpl; [intros [=]|].
  intros [= <-]. by exists contents, m.
Qed.

(** C1. When the document supplies no watch-time expression, the update
    policy of a successfully parsed model is that of
    [boshDeploymentDefaults], the interval from 0 to 300000. *)
Theorem default_update_stands m d :
  UpdateSpec.UpdateWatchTime (manifest.Update m) = None ->
  parseDeploymentManifest buildMap newWatchTime m = (d, None) ->
  Manifest.Update d = Manifest.Update boshDeploymentDefaults /\
  Manifest.Update d = Update.mk (WatchTime.mk 0 300000).
Proof.
  intros Hnil Hrun. apply parseDeploymentManifest_success in Hrun as (_&_&_&_&_&_&Hupdate).
  rewrite Hnil in Hupdate. by rewrite Hupdate.
Qed.

(** A supplied watch-time expression replaces the default by what
    [NewWatchTime] returns for it. *)
Lemma supplied_watch_time_overrides m d expression :
  UpdateSpec.UpdateWatchTime (manifest.Update m) = Some expression ->
  parseDeploymentManifest buildMap newWatchTime m = (d, None) ->
  newWatchTime expression = (Update.UpdateWatchTime (Manifest.Update d), None).
Proof.
  intros Hsome Hrun. apply parseDeploymentManifest_success in Hrun as (_&_&_&_&_&_&Hupdate).
  by rewrite Hsome in Hupdate.
Qed.

(** C6 (as amended). The name of a successfully parsed model is the
    document's name, copied without a check; it is empty when the document's
    name is absent or empty. *)
Theorem deployment_name_copied m d :
  parseDeploymentManifest buildMap newWatchTime m = (d, None) ->
  Manifest.Name d = manifest.Name m.
Proof.
  intros Hrun. by apply parseDeploymentManifest_success in Hrun as (? & _).
Qed.

(** C5. [parseDeploymentManifest] runs its steps in the order networks,
    resource pools, disk pools, jobs, global properties, update watch time:
    the error it returns is the error of the first step in that order that
    fails on the document, wrapped with that step's message, whatever the
    later steps would do. *)
Theorem first_failing_stage_reported m e :
  (snd (parseNetworkManifests buildMap (manifest.Networks m)) = Some e ->
   snd (parseDeploymentManifest buildMap newWatchTime m) =
     Some (WrapErrorf e "Parsing networks: %#v" [ArgNetworks (manifest.Networks m)])) /\
  (snd (parseNetworkManifests buildMap (manifest.Networks m)) = None ->
   snd (parseResourcePoolManifests buildMap (manifest.ResourcePools m)) = Some e ->
   snd (parseDeploymentManifest buildMap newWatchTime m) =
     Some (WrapErrorf e "Parsing resource_pools: %#v"
             [ArgResourcePools (manifest.ResourcePools m)])) /\
  (snd (parseNetworkManifests buildMap (manifest.Networks m)) = None ->
   snd (parseResourcePoolManifests buildMap (manifest.ResourcePools m)) = None ->
   snd (parseDiskPoolManifests buildMap (manifest.DiskPools m)) = Some e ->
   snd (parseDeploymentManifest buildMap newWatchTime m) =
     Some (WrapErrorf e "Parsing disk_pools: %#v" [ArgDiskPools (manifest.DiskPools m)])) /\
  (snd (parseNetworkManifests buildMap (manifest.Networks m)) = None ->
   snd (parseResourcePoolManifests buildMap (manifest.ResourcePools m)) = None ->
   snd (parseDiskPoolManifests buildMap (manifest.DiskPools m)) = None ->
   snd (parseJobManifests buildMap (manifest.Jobs m)) = Some e ->
   snd (parseDeploymentManifest buildMap newWatchTime m) =
     Some (WrapErrorf e "Parsing jobs: %#v" [ArgJobs (manifest.Jobs m)])) /\
  (snd (parseNetworkManifests buildMap (manifest.Networks m)) = None ->
   snd (parseResourcePoolManifests buildMap (manifest.ResourcePools m)) = None ->
   snd (parseDiskPoolManifests buildMap (manifest.DiskPools m)) = None ->
   snd (parseJobManifests buildMap (manifest.Jobs m)) = None ->
   snd (buildMap (manifest.Properties m)) = Some e ->
   snd (parseDeploymentManifest buildMap newWatchTime m) =
     Some (WrapErrorf e "Parsing global manifest properties: %#v"
             [ArgProperties (manifest.Properties m)])) /\
  (snd (parseNetworkManifests buildMap (manifest.Networks m)) = None ->
   snd (parseResourcePoolManifests buildMap (manifest.ResourcePools m)) = None ->
   snd (parseDiskPoolManifests buildMap (manifest.DiskPools m)) = None ->
   snd (parseJobManifests buildMap (manifest.Jobs m)) = None ->
   snd (buildMap (manifest.Properties m)) = None ->
   forall expression,
     UpdateSpec.UpdateWatchTime (manifest.Update m) = Some expression ->
     snd (newWatchTime expression) = Some e ->
     snd (parseDeploymentManifest buildMap newWatchTime m) =
       Some (WrapError e "Parsing update watch time")).
Proof.
  run_stages m; repeat split; intros; simplify_eq/=; try done.
  all: match goal with
       | H : snd (newWatchTime _) = _ |- _ => rewrite Hwatch in H
       end.
  all: by simplify_eq/=.
Qed.

Lemma parseDeploymentManifest_error_zero m e :
  snd (parseDeploymentManifest buildMap newWatchTime m) = Some e ->
  fst (parseDeploymentManifest buildMap newWatchTime m) = Manifest.zero.
Proof. run_stages m; done. Qed.

(** A step that fails on the document makes the orchestrator return the
    zero model together with the wrapped error of a failing step. *)
Lemma stage_failure_aborts m cause :
  stageFailure buildMap newWatchTime m cause ->
  exists cause' format args,
    stageFailure buildMap newWatchTime m cause' /\
    parseDeploymentManifest buildMap newWatchTime m =
      (Manifest.zero, Some (WrapErrorf cause' format args)).
Proof.
  run_stages m; intros Hfails.
  1-5: eexists _, _, _; (split; [|reflexivity]); simpl; tauto.
  - eexists _, _, _. split; [|reflexivity]. do 5 right.
    exists expression. by rewrite Hwatch.
  - exfalso. destruct Hfails as [?|[?|[?|[?|[?|(s & Hs & Hcause)]]]]]; try done.
    injection Hs as <-. by rewrite Hwatch in Hcause.
  - exfalso. destruct Hfails as [?|[?|[?|[?|[?|(s & Hs & Hcause)]]]]]; done.
Qed.

(** C4. Whenever [parseDeploymentManifest] or [Parse] returns an error, the
    model returned with it is the zero value [Manifest{}]. When a section
    parser, the builder on the global properties or the watch time parser
    fails on the decoded document, [parseDeploymentManifest] returns the zero
    model with the wrapped error of a failing step, and [Parse] returns the
    zero model with that error wrapped once more. *)
Theorem failed_parse_returns_zero_model :
  (forall m e,
     snd (parseDeploymentManifest buildMap newWatchTime m) = Some e ->
     fst (parseDeploymentManifest buildMap newWatchTime m) = Manifest.zero) /\
  (forall path e,
     snd (Parse ReadFile Unmarshal buildMap newWatchTime path) = Some e ->
     fst (Parse ReadFile Unmarshal buildMap newWatchTime path) = Manifest.zero) /\
  (forall m cause,
     stageFailure buildMap newWatchTime m cause ->
     exists cause' format args,
       stageFailure buildMap newWatchTime m cause' /\
       parseDeploymentManifest buildMap newWatchTime m =
         (Manifest.zero, Some (WrapErrorf cause' format args)) /\
       forall path contents,
         ReadFile path = (contents, None) ->
         Unmarshal contents manifest.zero = (m, None) ->
         Parse ReadFile Unmarshal buildMap newWatchTime path =
           (Manifest.zero,
            Some (WrapError (WrapErrorf cause' format args)
                    "Unmarshalling BOSH deployment manifest"))).
Proof.
  split; [|split].
  - apply parseDeploymentManifest_error_zero.
  - intros path e. unfold Parse.
    destruct (ReadFile path) as [contents [e1|]]; simpl; [done|].
    destruct (Unmarshal contents manifest.zero) as [m [e2|]]; simpl; [done|].
    destruct (parseDeploymentManifest buildMap newWatchTime m) as [d [e3|]]; simpl; done.
  - intros m cause Hfails.
    destruct (stage_failure_aborts m cause Hfails) as (cause' & format & args & Hstage & Hrun).
    exists cause', format, args. split; [done|]. split; [done|].
    intros path contents Hread Hdecode. unfold Parse.
    by rewrite Hread, Hdecode, Hrun.
Qed.

End Orchestrator.

Lemma NewWatchTime_pair : NewWatchTime "1000-2000" = (WatchTime.mk 1000 2000, None).
Proof. reflexivity. Qed.

Lemma NewWatchTime_single : NewWatchTime "5000" = (WatchTime.mk 0 5000, None).
Proof. reflexivity. Qed.


Lemma digitValue_not_dash c d : digitValue c = Some d -> Ascii.eqb c "-" = false.
Proof.
  intros Hdigit. destruct (Ascii.eqb_spec c "-") as [->|]; [|done].
  vm_compute in Hdigit. discriminate.
Qed.

(** A string of digits holds no separator. *)
Lemma splitOn_digits s : forall acc e,
  parseDigits s acc = Some e -> splitOn "-" s = [s].
Proof.
  induction s as [|c s IH]; intros acc e Hparse; simpl in *; [done|].
  destruct (digitValue c) as [d|] eqn:Hdigit; [|done].
  rewrite (digitValue_not_dash c d Hdigit), (IH _ _ Hparse). done.
Qed.

Lemma splitOn_digits_dash s rest : forall acc e,
  parseDigits s acc = Some e ->
  splitOn "-" (s ++ String "-" rest)%string = s :: splitOn "-" rest.
Proof.
  induction s as [|c s IH]; intros acc e Hparse; simpl in *; [done|].
  destruct (digitValue c) as [d|] eqn:Hdigit; [|done].
  rewrite (digitValue_not_dash c d Hdigit), (IH _ _ Hparse). done.
Qed.

Lemma parseBound_digits s e : parseBound s = Some e -> parseDigits s 0 = Some e.
Proof. by destruct s. Qed.

(** A single integer literal is the end of the interval; the start is 0. *)
Lemma NewWatchTime_single_literal s e :
  parseBound s = Some e -> NewWatchTime s = (WatchTime.mk 0 e, None).
Proof.
  intros Hbound. unfold NewWatchTime.
  rewrite (splitOn_digits s 0 e (parseBound_digits s e Hbound)). by rewrite Hbound.
Qed.

(** Two integer literals around ["-"] are the start and the end, in that
    order, and are accepted exactly when start <= end. *)
Lemma NewWatchTime_pair_literals a b st e :
  parseBound a = Some st -> parseBound b = Some e ->
  NewWatchTime (a ++ "-" ++ b)%string =
    if (st <=? e)%Z then (WatchTime.mk st e, None)
    else (WatchTime.zero, Some (Errorf ("invalid interval: " ++ a ++ " > " ++ b))).
Proof.
  intros Ha Hb. unfold NewWatchTime.
  change (a ++ "-" ++ b)%string with (a ++ String "-" b)%string.
  rewrite (splitOn_digits_dash a b 0 st (parseBound_digits a st Ha)).
  rewrite (splitOn_digits b 0 e (parseBound_digits b e Hb)).
  by rewrite Ha, Hb.
Qed.

Lemma parseDigits_decimal d : forall acc,
  parseDigits (DecimalString.NilEmpty.string_of_uint d) (Z.of_nat acc)
  = Some (Z.of_nat (Nat.of_uint_acc d acc)).
Proof.
  induction d; intros acc; simpl; [done|..];
    rewrite <- IHd; f_equal; rewrite Nat.tail_mul_spec;
    match goal with
    | |- context [nat_of_ascii ?c] =>
        let v := eval vm_compute in (nat_of_ascii c) in
        change (nat_of_ascii c) with v
    end; lia.
Qed.

(** The bound parser reads the decimal literal of [n] as [n]. *)
Lemma parseBound_decimal n : parseBound (decimal n) = Some (Z.of_nat n).
Proof.
  unfold parseBound, decimal.
  destruct (DecimalString.NilEmpty.string_of_uint (Nat.to_uint n)) eqn:Hs.
  - exfalso. destruct (Nat.to_uint n) eqn:Hd; try discriminate.
    pose proof (DecimalNat.Unsigned.to_of (Nat.to_uint n)) as Hnorm.
    rewrite DecimalNat.Unsigned.of_to, Hd in Hnorm. discriminate.
  - rewrite <- Hs. rewrite (parseDigits_decimal _ 0).
    change (Nat.of_uint_acc (Nat.to_uint n) 0) with (Nat.of_uint (Nat.to_uint n)).
    by rewrite DecimalNat.Unsigned.of_to.
Qed.

(** C2. With the watch time parser of the specification, a successfully
    parsed document that supplies the expression "1000-2000" has the update
    interval (1000, 2000), and one that supplies "5000" has (0, 5000). In
    general a single integer literal is the end of the interval and the
    start is 0, and two literals around "-" are the start and the end, with
    start <= end; this holds for every string of digits that the bound
    parser reads and, in particular, for the decimal literal of every
    natural number. The watch time parser accepts all these expressions. *)
Theorem supplied_watch_time_interval buildMap :
  (forall m d,
     parseDeploymentManifest buildMap NewWatchTime m = (d, None) ->
     (UpdateSpec.UpdateWatchTime (manifest.Update m) = Some "1000-2000" ->
      Manifest.Update d = Update.mk (WatchTime.mk 1000 2000)) /\
     (UpdateSpec.UpdateWatchTime (manifest.Update m) = Some "5000" ->
      Manifest.Update d = Update.mk (WatchTime.mk 0 5000)) /\
     (forall s e,
        UpdateSpec.UpdateWatchTime (manifest.Update m) = Some s ->
        parseBound s = Some e ->
        Manifest.Update d = Update.mk (WatchTime.mk 0 e)) /\
     (forall a b st e,
        UpdateSpec.UpdateWatchTime (manifest.Update m) = Some (a ++ "-" ++ b)%string ->
        parseBound a = Some st ->
        parseBound b = Some e ->
        Manifest.Update d = Update.mk (WatchTime.mk st e) /\ (st <= e)%Z) /\
     (forall n,
        UpdateSpec.UpdateWatchTime (manifest.Update m) = Some (decimal n) ->
        Manifest.Update d = Update.mk (WatchTime.mk 0 (Z.of_nat n))) /\
     (forall a b,
        UpdateSpec.UpdateWatchTime (manifest.Update m)
          = Some (decimal a ++ "-" ++ decimal b)%string ->
        Manifest.Update d = Update.mk (WatchTime.mk (Z.of_nat a) (Z.of_nat b)) /\
        (a <= b)%nat)) /\
  (forall s e,
     parseBound s = Some e -> NewWatchTime s = (WatchTime.mk 0 e, None)) /\
  (forall n, NewWatchTime (decimal n) = (WatchTime.mk 0 (Z.of_nat n), None)) /\
  (forall a b,
     (a <= b)%nat ->
     NewWatchTime (decimal a ++ "-" ++ decimal b)%string
       = (WatchTime.mk (Z.of_nat a) (Z.of_nat b), None)).
Proof.
  assert (forall m d s w,
            parseDeploymentManifest buildMap NewWatchTime m = (d, None) ->
            UpdateSpec.UpdateWatchTime (manifest.Update m) = Some s ->
            fst (NewWatchTime s) = w -> snd (NewWatchTime s) = None ->
            Manifest.Update d = Update.mk w) as Hstored.
  { intros m d s w Hrun Hsupplied Hvalue Hok.
    pose proof (supplied_watch_time_overrides _ _ _ _ _ Hsupplied Hrun) as Hwatch.
    rewrite Hwatch in Hvalue. simpl in Hvalue.
    destruct (Manifest.Update d) as [watchTime]. simpl in *. congruence. }
  assert (forall a b st e,
            parseBound a = Some st -> parseBound b = Some e ->
            snd (NewWatchTime (a ++ "-" ++ b)%string) = None ->
            fst (NewWatchTime (a ++ "-" ++ b)%string) = WatchTime.mk st e /\ (st <= e)%Z)
    as Hpair.
  { intros a b st e Ha Hb. rewrite (NewWatchTime_pair_literals a b st e Ha Hb).
    destruct (st <=? e)%Z eqn:Hle; simpl; [|done]. intros _. split; [done|lia]. }
  split; [|split; [|split]].
  - intros m d Hrun.
    assert (forall s, UpdateSpec.UpdateWatchTime (manifest.Update m) = Some s ->
                      snd (NewWatchTime s) = None) as Haccepted.
    { intros s Hsupplied.
      by rewrite (supplied_watch_time_overrides _ _ _ _ _ Hsupplied Hrun). }
    split; [|split; [|split; [|split; [|split]]]].
    + intros Hsupplied. apply (Hstored m d _ _ Hrun Hsupplied); by rewrite NewWatchTime_pair.
    + intros Hsupplied. apply (Hstored m d _ _ Hrun Hsupplied); by rewrite NewWatchTime_single.
    + intros s e Hsupplied Hbound.
      apply (Hstored m d _ _ Hrun Hsupplied);
        by rewrite (NewWatchTime_single_literal s e Hbound).
    + intros a b st e Hsupplied Ha Hb.
      destruct (Hpair a b st e Ha Hb (Haccepted _ Hsupplied)) as [Hvalue Hle].
      split; [|done]. by apply (Hstored m d _ _ Hrun Hsupplied), Haccepted.
    + intros n Hsupplied.
      apply (Hstored m d _ _ Hrun Hsupplied);
        by rewrite (NewWatchTime_single_literal _ _ (parseBound_decimal n)).
    + intros a b Hsupplied.
      destruct (Hpair _ _ _ _ (parseBound_decimal a) (parseBound_decimal b)
                  (Haccepted _ Hsupplied)) as [Hvalue Hle].
      split; [|lia]. by apply (Hstored m d _ _ Hrun Hsupplied), Haccepted.
  - apply NewWatchTime_single_literal.
  - intros n. apply NewWatchTime_single_literal, parseBound_decimal.
  - intros a b Hle.
    rewrite (NewWatchTime_pair_literals _ _ _ _ (parseBound_decimal a) (parseBound_decimal b)).
    by rewrite (proj2 (Z.leb_le _ _)) by lia.
Qed.

(** ** The theorems at sample documents *)

Lemma default_update_stands_sample :
  UpdateSpec.UpdateWatchTime (manifest.Update sampleManifest) = None /\
  snd (parseDeploymentManifest BuildMap NewWatchTime sampleManifest) = None /\
  Manifest.Update (fst (parseDeploymentManifest BuildMap NewWatchTime sampleManifest))
    = Update.mk (WatchTime.mk 0 300000).
Proof.
  split; [reflexivity|]. split; [reflexivity|].
  exact (proj2 (default_update_stands BuildMap NewWatchTime sampleManifest _
                  eq_refl eq_refl)).
Defined.

Lemma supplied_watch_time_interval_sample :
  Manifest.Update
    (fst (parseDeploymentManifest BuildMap NewWatchTime
            (withWatchTime "1000-2000" sampleManifest)))
    = Update.mk (WatchTime.mk 1000 2000) /\
  Manifest.Update
    (fst (parseDeploymentManifest BuildMap NewWatchTime
            (withWatchTime "5000" sampleManifest)))
    = Update.mk (WatchTime.mk 0 5000) /\
  Manifest.Update
    (fst (parseDeploymentManifest BuildMap NewWatchTime
            (withWatchTime "42" sampleManifest)))
    = Update.mk (WatchTime.mk 0 42) /\
  Manifest.Update
    (fst (parseDeploymentManifest BuildMap NewWatchTime
            (withWatchTime "250-750" sampleManifest)))
    = Update.mk (WatchTime.mk 250 750).
Proof.
  destruct (supplied_watch_time_interval BuildMap) as [Hstored _].
  split; [|split; [|split]].
  - destruct (Hstored (withWatchTime "1000-2000" sampleManifest) _ eq_refl)
      as (Hpair & _).
    exact (Hpair eq_refl).
  - destruct (Hstored (withWatchTime "5000" sampleManifest) _ eq_refl)
      as (_ & Hsingle & _).
    exact (Hsingle eq_refl).
  - destruct (Hstored (withWatchTime "42" sampleManifest) _ eq_refl)
      as (_ & _ & _ & _ & Hdecimal & _).
    exact (Hdecimal 42%nat eq_refl).
  - destruct (Hstored (withWatchTime "250-750" sampleManifest) _ eq_refl)
      as (_ & _ & _ & _ & _ & Hdecimals).
    exact (proj1 (Hdecimals 250%nat 750%nat eq_refl)).
Defined.

Lemma section_parsers_index_correspondence_sample :
  (exists out y,
     parseJobManifests BuildMap (Some [sampleJob; negativeJob]) = (out, None) /\
     len out = 2 /\ elems out !! 1 = Some y /\ Job.Name y = "worker") /\
  (exists out y,
     parseNetworkManifests BuildMap (Some [sampleNetwork]) = (out, None) /\
     len out = 1 /\ elems out !! 0 = Some y /\ Network.Name y = "default").
Proof.
  destruct (section_parsers_index_correspondence BuildMap)
    as (Hnetworks & _ & _ & Hjobs).
  split.
  - destruct (Hjobs (Some [sampleJob; negativeJob]) _ eq_refl) as [Hlen Hentries].
    destruct (Hentries 1 negativeJob eq_refl) as (y & Hy & _ & Hname).
    eexists _, y. split; [reflexivity|]. split; [exact Hlen|]. split; [exact Hy|exact Hname].
  - destruct (Hnetworks (Some [sampleNetwork]) _ eq_refl) as [Hlen Hentries].
    destruct (Hentries 0 sampleNetwork eq_refl) as (y & Hy & _ & Hname).
    eexists _, y. split; [reflexivity|]. split; [exact Hlen|]. split; [exact Hy|exact Hname].
Defined.

Lemma failed_parse_returns_zero_model_sample :
  fst (Parse fakeReadFile (fakeUnmarshal brokenManifest) BuildMap NewWatchTime
         "manifest.yml") = Manifest.zero /\
  exists cause format args,
    Parse fakeReadFile (fakeUnmarshal brokenManifest) BuildMap NewWatchTime "manifest.yml"
    = (Manifest.zero,
       Some (WrapError (WrapErrorf cause format args)
               "Unmarshalling BOSH deployment manifest")).
Proof.
  destruct (failed_parse_returns_zero_model
              fakeReadFile (fakeUnmarshal brokenManifest) BuildMap NewWatchTime)
    as (_ & Hparse & Hstage).
  split.
  - eapply Hparse. reflexivity.
  - destruct (Hstage brokenManifest _ (or_introl eq_refl))
      as (cause & format & args & _ & _ & Hfile).
    exists cause, format, args. exact (Hfile "manifest.yml" [] eq_refl eq_refl).
Defined.

Lemma first_failing_stage_reported_sample :
  exists e e',
    snd (parseNetworkManifests BuildMap (manifest.Networks brokenManifest)) = Some e /\
    snd (parseJobManifests BuildMap (manifest.Jobs brokenManifest)) = Some e' /\
    snd (parseDeploymentManifest BuildMap NewWatchTime brokenManifest) =
      Some (WrapErrorf e "Parsing networks: %#v"
              [ArgNetworks (manifest.Networks brokenManifest)]).
Proof.
  eexists _, _. split; [reflexivity|]. split; [reflexivity|].
  exact (proj1 (first_failing_stage_reported BuildMap NewWatchTime brokenManifest _)
           eq_refl).
Defined.

(** C6, counterexample. The zero document, whose name is empty, parses
    without error to a model whose name is empty. *)
Lemma deployment_name_empty_counterexample :
  snd (parseDeploymentManifest BuildMap NewWatchTime manifest.zero) = None /\
  Manifest.Name (fst (parseDeploymentManifest BuildMap NewWatchTime manifest.zero)) = "".
Proof. split; reflexivity. Qed.

Lemma deployment_name_copied_sample :
  Manifest.Name (fst (parseDeploymentManifest BuildMap NewWatchTime sampleManifest))
    = "sample".
Proof.
  exact (deployment_name_copied BuildMap NewWatchTime sampleManifest _ eq_refl).
Defined.

(** C7, counterexample. The sample job has no lifecycle tag; it parses
    without error to a job whose lifecycle tag is the empty string. *)
Lemma job_lifecycle_empty_counterexample :
  job.Lifecycle sampleJob = "" /\
  exists y,
    parseJobManifests BuildMap (Some [sampleJob]) = (Some [y], None) /\
    Job.Lifecycle y = "".
Proof. split; [reflexivity|]. eexists. split; reflexivity. Qed.

Lemma job_lifecycle_copied_sample :
  exists y,
    parseJobManifests BuildMap (Some [negativeJob]) = (Some [y], None) /\
    Job.Lifecycle y = "errand".
Proof.
  eexists. split; [reflexivity|].
  exact (proj1 (job_lifecycle_copied BuildMap (Some [negativeJob]) _ 0 negativeJob _
                  eq_refl eq_refl eq_refl)).
Defined.

(** C8, counterexample. A job entry with [instances: -1] parses without
    error to a job whose instance count is -1. *)
Lemma job_instances_negative_counterexample :
  exists y,
    parseJobManifests BuildMap (Some [negativeJob]) = (Some [y], None) /\
    (Job.Instances y < 0)%Z.
Proof. eexists. split; reflexivity. Qed.

Lemma job_instances_copied_sample :
  exists y,
    parseJobManifests BuildMap (Some [negativeJob]) = (Some [y], None) /\
    Job.Instances y = (-1)%Z.
Proof.
  eexists. split; [reflexivity|].
  exact (job_instances_copied BuildMap (Some [negativeJob]) _ 0 negativeJob _
           eq_refl eq_refl eq_refl).
Defined.

Lemma absent_job_blocks_stay_nil_sample :
  exists y,
    parseJob BuildMap sampleJob = Assign y /\
    Job.Properties y = None /\ Job.Networks y = None /\
    snd (parseJobManifests BuildMap (Some [sampleJob; negativeJob])) = None.
Proof.
  destruct absent_job_blocks_stay_nil as (Hentry & Hall & Hblocks).
  destruct (Hentry sampleJob eq_refl BuildMap) as (y & Hy & _ & Hnil & _).
  exists y. split; [exact Hy|]. split; [exact Hnil|]. split.
  - exact (proj2 (Hblocks BuildMap sampleJob y Hy) eq_refl).
  - refine (proj1 (Hall (Some [sampleJob; negativeJob]) _ BuildMap)).
    repeat constructor.
Defined.

Lemma pool_parsers_fail_only_on_properties_sample :
  snd (parseResourcePoolManifests BuildMap (Some [sampleResourcePool; brokenResourcePool]))
    = Some (WrapErrorf (Errorf "unsupported key type: bool")
              "Parsing resource_pool '%s' env: %#v"
              [ArgString "small"; ArgProperties badProperties]) /\
  (exists y,
     parseDiskPoolManifests BuildMap (Some [sampleDiskPool]) = (Some [y], None) /\
     DiskPool.Name y = "" /\ DiskPool.DiskSize y = (-1)%Z).
Proof.
  destruct (pool_parsers_fail_only_on_properties BuildMap)
    as (_ & _ & Hfirst & _ & _ & Hdisk).
  split.
  - refine (proj2 (Hfirst (Some [sampleResourcePool; brokenResourcePool])
                     [sampleResourcePool] brokenResourcePool [] _ eq_refl _)
              eq_refl eq_refl).
    repeat constructor.
  - destruct (Hdisk (Some [sampleDiskPool]) _ eq_refl 0 sampleDiskPool eq_refl)
      as (y & Hy & Hname & Hsize).
    exists y. split; [|split; [exact Hname|exact Hsize]].
    simpl in Hy. injection Hy as <-. reflexivity.
Defined.

(** * Further properties of the parser *)

(** ** What the loop leaves in the slice *)

Section RangeLoopContents.

Context {A B : Type} (body : A -> outcome B) (zero : B).

(** Running over a prefix whose bodies all assign writes their results at the
    indices visited and carries on with the rest. *)
Lemma rangeLoop_prefix rest pre bs : forall i out,
  Forall2 (fun x b => body x = Assign b) pre bs ->
  (i + length pre <= length out)%nat ->
  rangeLoop body i (pre ++ rest) out =
  rangeLoop body (i + length pre) rest
    (take i out ++ bs ++ drop (i + length pre) out).
Proof.
  intros i out Hpre. revert i out.
  induction Hpre as [|x b pre bs Hx Hpre IH]; intros i out Hlen; simpl in *.
  - by rewrite Nat.add_0_r, take_drop.
  - rewrite Hx, IH by (rewrite length_insert; lia).
    replace (S i + length pre)%nat with (i + S (length pre))%nat by lia.
    f_equal.
    rewrite (take_S_r (<[i:=b]> out) i b) by (apply list_lookup_insert_eq; lia).
    rewrite take_insert_ge by lia.
    rewrite drop_insert_lt by lia.
    by rewrite <- app_assoc.
Qed.

Lemma assigned_results l :
  Forall (fun y => exists b, body y = Assign b) l ->
  exists bs, Forall2 (fun x b => body x = Assign b) l bs.
Proof.
  induction 1 as [|x l [b Hb] _ [bs Hbs]]; [by exists []|].
  exists (b :: bs). by constructor.
Qed.

(** A loop whose bodies all assign returns their results in order. *)
Lemma makeAndRange_results raw bs :
  Forall2 (fun x b => body x = Assign b) (elems raw) bs ->
  makeAndRange zero body raw = (Some bs, None).
Proof.
  intros Hall. unfold makeAndRange.
  rewrite <- (app_nil_r (elems raw)) at 1.
  rewrite (rangeLoop_prefix [] (elems raw) bs) by (done || (rewrite length_replicate; done)).
  simpl. rewrite drop_ge by (rewrite length_replicate; done).
  by rewrite app_nil_r.
Qed.

(** A loop that returns early has written the results of the entries before
    the failing one and left zero values from the failing index on. *)
Lemma makeAndRange_partial raw pre x post bs e :
  elems raw = pre ++ x :: post ->
  Forall2 (fun x b => body x = Assign b) pre bs ->
  body x = Return e ->
  makeAndRange zero body raw = (Some (bs ++ replicate (S (length post)) zero), Some e).
Proof.
  intros Heq Hpre Hx. unfold makeAndRange, len. rewrite Heq.
  rewrite (rangeLoop_prefix (x :: post) pre bs)
    by (done || (rewrite length_replicate, length_app; simpl; lia)).
  simpl. rewrite Hx, drop_replicate, length_app. simpl.
  by replace (length pre + S (length post) - length pre)%nat
    with (S (length post)) by lia.
Qed.

Lemma makeAndRange_error_inv raw out e :
  makeAndRange zero body raw = (out, Some e) ->
  exists pre x post bs,
    elems raw = pre ++ x :: post /\
    Forall2 (fun x b => body x = Assign b) pre bs /\
    body x = Return e /\
    out = Some (bs ++ replicate (S (length post)) zero).
Proof.
  intros Hrun.
  assert (snd (makeAndRange zero body raw) = Some e) as Herr by (by rewrite Hrun).
  apply makeAndRange_failure in Herr as (pre & x & post & Heq & Hpre & Hx).
  destruct (assigned_results pre Hpre) as [bs Hbs].
  exists pre, x, post, bs. repeat split; try done.
  rewrite (makeAndRange_partial raw pre x post bs e Heq Hbs Hx) in Hrun.
  congruence.
Qed.

Lemma makeAndRange_ok_inv raw out :
  makeAndRange zero body raw = (out, None) ->
  exists bs, Forall2 (fun x b => body x = Assign b) (elems raw) bs /\ out = Some bs.
Proof.
  intros Hrun.
  assert (Forall (fun y => exists b, body y = Assign b) (elems raw)) as Hall.
  { apply Forall_forall. intros x Hin. apply list_elem_of_lookup in Hin as [i Hi].
    apply makeAndRange_success in Hrun as [_ Hentries].
    destruct (Hentries i x Hi) as (y & _ & Hy). by exists y. }
  destruct (assigned_results _ Hall) as [bs Hbs]. exists bs. split; [done|].
  rewrite (makeAndRange_results raw bs Hbs) in Hrun. congruence.
Qed.

End RangeLoopContents.

(** The loop without early return is a [map] into a fresh slice. *)
Lemma makeAndMap_map {A B} (zero : B) (f : A -> B) (raw : slice A) :
  makeAndMap zero f raw = Some (map f (elems raw)).
Proof.
  unfold makeAndMap.
  rewrite (makeAndRange_results (fun x => Assign (f x)) zero raw (map f (elems raw))); [done|].
  induction (elems raw); by constructor.
Qed.

(** ** The section parsers, entry by entry *)

Section SectionParserContents.

Variable buildMap : rawmap -> Map * option error.

Lemma parseNetwork_assigns x :
  (exists b, parseNetwork buildMap x = Assign b) <->
  snd (buildMap (network.CloudProperties x)) = None.
Proof.
  rewrite parseNetwork_outcome.
  destruct (buildMap (network.CloudProperties x)) as [cp [err|]]; simpl.
  { split; [by intros [b ?] | done]. }
  split; [done | eauto].
Qed.

(** The network attachment of a job is copied field by field: the loop over
    the defaults converts each string to [NetworkDefault] and keeps a [nil]
    list [nil]. *)
Lemma parseJobNetwork_copy n :
  parseJobNetwork n =
    JobNetwork.mk (jobNetwork.Name n) (jobNetwork.Default n) (jobNetwork.StaticIPs n).
Proof.
  unfold parseJobNetwork. destruct (jobNetwork.Default n) as [defaults|] eqn:Hdefault; [|done].
  rewrite makeAndMap_map. unfold JobNetwork.with_Default. simpl.
  by rewrite map_id.
Qed.

Lemma parseJob_outcome x :
  parseJob buildMap x =
    let job properties :=
      Job.mk (job.Name x) (job.Instances x) (job.Lifecycle x)
        (option_map
           (map (fun r => ReleaseJobRef.mk (releaseJobRef.Name r) (releaseJobRef.Release r)))
           (job.Templates x))
        (option_map
           (map (fun n => JobNetwork.mk (jobNetwork.Name n) (jobNetwork.Default n)
                            (jobNetwork.StaticIPs n)))
           (job.Networks x))
        (job.PersistentDisk x) (job.PersistentDiskPool x) properties in
    match job.Properties x with
    | None => Assign (job None)
    | Some _ =>
        match buildMap (job.Properties x) with
        | (_, Some err) =>
            Return (WrapErrorf err "Parsing job '%s' properties: %#v"
                      [ArgString (job.Name x); ArgProperties (job.Properties x)])
        | (properties, None) => Assign (job properties)
        end
    end.
Proof.
  unfold parseJob.
  destruct (job.Templates x) as [templates|], (job.Networks x) as [networks|];
    rewrite ?makeAndMap_map; simpl;
    rewrite ?(map_ext _ _ parseJobNetwork_copy);
    destruct (job.Properties x) as [properties|]; try done;
    by destruct (buildMap _) as [built [err|]].
Qed.

Lemma parseJob_assigns x :
  (exists b, parseJob buildMap x = Assign b) <->
  job.Properties x = None \/ snd (buildMap (job.Properties x)) = None.
Proof.
  rewrite parseJob_outcome. simpl.
  destruct (job.Properties x) as [properties|]; [|split; eauto].
  destruct (buildMap (Some properties)) as [built [err|]]; simpl.
  - split; [by intros [b ?] | by intros [?|?]].
  - split; eauto.
Qed.

(** X1. Network parsing returns an error exactly when the property builder
    fails on the cloud_properties of some entry; the error is the builder's
    error on the first such entry, wrapped with that entry's name and
    block. *)
Theorem network_parser_fails_only_on_cloud_properties :
  (forall raw,
     (exists e, snd (parseNetworkManifests buildMap raw) = Some e) <->
     (exists x, x ∈ elems raw /\ snd (buildMap (network.CloudProperties x)) <> None)) /\
  (forall raw pre x post err,
     elems raw = pre ++ x :: post ->
     Forall (fun y => snd (buildMap (network.CloudProperties y)) = None) pre ->
     snd (buildMap (network.CloudProperties x)) = Some err ->
     snd (parseNetworkManifests buildMap raw) =
       Some (WrapErrorf err "Parsing network '%s' cloud_properties: %#v"
               [ArgString (network.Name x);
                ArgProperties (network.CloudProperties x)])).
Proof.
  split.
  - intros raw. unfold parseNetworkManifests. rewrite makeAndRange_fails_iff.
    split; intros (x & Hin & Hx); exists x; (split; [done|]);
      by rewrite parseNetwork_assigns in *.
  - intros raw pre x post err Heq Hpre Hcp.
    apply makeAndRange_failure. exists pre, x, post. split; [done|]. split.
    + eapply Forall_impl; [exact Hpre|]. intros y Hy. by apply parseNetwork_assigns.
    + rewrite parseNetwork_outcome.
      destruct (buildMap (network.CloudProperties x)) as [cp o]. simpl in Hcp. by subst o.
Qed.

(** X2. Job parsing returns an error exactly when some entry has a non-nil
    properties block on which the property builder fails; the error is the
    builder's error on the first such entry, wrapped with that job's name
    and block. A builder that would fail on a nil block does not make job
    parsing fail. *)
Theorem job_parser_fails_only_on_properties :
  (forall raw,
     (exists e, snd (parseJobManifests buildMap raw) = Some e) <->
     (exists x, x ∈ elems raw /\ job.Properties x <> None /\
                snd (buildMap (job.Properties x)) <> None)) /\
  (forall raw pre x post err,
     elems raw = pre ++ x :: post ->
     Forall (fun y => job.Properties y = None \/
                      snd (buildMap (job.Properties y)) = None) pre ->
     job.Properties x <> None ->
     snd (buildMap (job.Properties x)) = Some err ->
     snd (parseJobManifests buildMap raw) =
       Some (WrapErrorf err "Parsing job '%s' properties: %#v"
               [ArgString (job.Name x); ArgProperties (job.Properties x)])).
Proof.
  split.
  - intros raw. unfold parseJobManifests. rewrite makeAndRange_fails_iff.
    split; intros (x & Hin & Hx); exists x; (split; [done|]).
    + rewrite parseJob_assigns in Hx. split; intros Hnil; apply Hx; [by left | by right].
    + rewrite parseJob_assigns. destruct Hx as [Hnil Hfail]. by intros [?|?].
  - intros raw pre x post err Heq Hpre Hnil Herr.
    apply makeAndRange_failure. exists pre, x, post. split; [done|]. split.
    + eapply Forall_impl; [exact Hpre|]. intros y Hy. by apply parseJob_assigns.
    + rewrite parseJob_outcome. simpl.
      destruct (job.Properties x) as [properties|]; [|done].
      destruct (buildMap (Some properties)) as [built o]. simpl in Herr. by subst o.
Qed.

(** X3. In a successful run of the network, resource pool or disk pool
    parser, the entry at index [i] consists of the scalar fields of the raw
    entry at index [i] and of the trees that the property builder returns
    for its cloud_properties (and env) blocks. *)
Theorem parsed_entries_carry_built_trees :
  (forall raw out i x,
     parseNetworkManifests buildMap raw = (out, None) ->
     elems raw !! i = Some x ->
     elems out !! i =
       Some (Network.mk (network.Name x) (network.Type_ x)
               (fst (buildMap (network.CloudProperties x)))
               (network.IP x) (network.Netmask x) (network.Gateway x) (network.DNS x))) /\
  (forall raw out i x,
     parseResourcePoolManifests buildMap raw = (out, None) ->
     elems raw !! i = Some x ->
     elems out !! i =
       Some (ResourcePool.mk (resourcePool.Name x) (resourcePool.Network x)
               (fst (buildMap (resourcePool.CloudProperties x)))
               (fst (buildMap (resourcePool.Env x))))) /\
  (forall raw out i x,
     parseDiskPoolManifests buildMap raw = (out, None) ->
     elems raw !! i = Some x ->
     elems out !! i =
       Some (DiskPool.mk (diskPool.Name x) (diskPool.DiskSize x)
               (fst (buildMap (diskPool.CloudProperties x))))).
Proof.
  split; [|split]; intros raw out i x Hrun Hx;
    apply makeAndRange_success in Hrun as [_ Hentries];
    destruct (Hentries i x Hx) as (y & -> & Hbody); f_equal.
  - rewrite parseNetwork_outcome in Hbody.
    destruct (buildMap (network.CloudProperties x)) as [cp [err|]]; by simplify_eq.
  - rewrite parseResourcePool_outcome in Hbody.
    destruct (buildMap (resourcePool.CloudProperties x)) as [cp [err|]]; [done|].
    destruct (buildMap (resourcePool.Env x)) as [env [err|]]; by simplify_eq.
  - rewrite parseDiskPool_outcome in Hbody.
    destruct (buildMap (diskPool.CloudProperties x)) as [cp [err|]]; by simplify_eq.
Qed.

(** X4. In a successfully parsed job a nil templates or networks list stays
    nil, and a non-nil one becomes a list of the same length and order whose
    entries carry the same fields: name and release for a template; name,
    default tags and static IPs for a network attachment. *)
Theorem job_sequences_expanded raw out i x y :
  parseJobManifests buildMap raw = (out, None) ->
  elems raw !! i = Some x ->
  elems out !! i = Some y ->
  Job.Templates y =
    option_map
      (map (fun r => ReleaseJobRef.mk (releaseJobRef.Name r) (releaseJobRef.Release r)))
      (job.Templates x) /\
  Job.Networks y =
    option_map
      (map (fun n => JobNetwork.mk (jobNetwork.Name n) (jobNetwork.Default n)
                       (jobNetwork.StaticIPs n)))
      (job.Networks x) /\
  len (Job.Templates y) = len (job.Templates x) /\
  len (Job.Networks y) = len (job.Networks x).
Proof.
  intros Hrun Hx Hy. apply makeAndRange_success in Hrun as [_ Hentries].
  destruct (Hentries i x Hx) as (y' & Hy' & Hbody).
  assert (y' = y) as -> by congruence.
  rewrite parseJob_outcome in Hbody. simpl in Hbody.
  assert (Job.Templates y = option_map
            (map (fun r => ReleaseJobRef.mk (releaseJobRef.Name r) (releaseJobRef.Release r)))
            (job.Templates x) /\
          Job.Networks y = option_map
            (map (fun n => JobNetwork.mk (jobNetwork.Name n) (jobNetwork.Default n)
                             (jobNetwork.StaticIPs n)))
            (job.Networks x)) as [Htemplates Hnetworks].
  { destruct (job.Properties x) as [properties|];
      [destruct (buildMap (Some properties)) as [built [err|]]|]; by simplify_eq. }
  rewrite Htemplates, Hnetworks. repeat split; unfold len.
  - destruct (job.Templates x); simpl; [apply length_map|done].
  - destruct (job.Networks x); simpl; [apply length_map|done].
Qed.

(** X5. In a successfully parsed job the property tree is what the builder
    returns for a non-nil properties block, and both the persistent disk
    size and the persistent disk pool name are copied: the parser keeps the
    two together and checks neither. *)
Theorem job_properties_and_disks raw out i x y :
  parseJobManifests buildMap raw = (out, None) ->
  elems raw !! i = Some x ->
  elems out !! i = Some y ->
  (job.Properties x <> None -> Job.Properties y = fst (buildMap (job.Properties x))) /\
  Job.PersistentDisk y = job.PersistentDisk x /\
  Job.PersistentDiskPool y = job.PersistentDiskPool x.
Proof.
  intros Hrun Hx Hy. apply makeAndRange_success in Hrun as [_ Hentries].
  destruct (Hentries i x Hx) as (y' & Hy' & Hbody).
  assert (y' = y) as -> by congruence.
  rewrite parseJob_outcome in Hbody. simpl in Hbody.
  destruct (job.Properties x) as [properties|];
    [destruct (buildMap (Some properties)) as [built [err|]]|]; by simplify_eq.
Qed.

(** X6. When a section parser returns an error it returns with it a slice of
    the input's length: the entries before the failing one are parsed, the
    failing entry and all later ones are zero values. *)
Theorem section_parsers_partial_on_error :
  (forall raw out e, parseNetworkManifests buildMap raw = (out, Some e) ->
     exists pre x post parsed,
       elems raw = pre ++ x :: post /\
       Forall2 (fun x' y => parseNetwork buildMap x' = Assign y) pre parsed /\
       parseNetwork buildMap x = Return e /\
       out = Some (parsed ++ replicate (S (length post)) Network.zero)) /\
  (forall raw out e, parseResourcePoolManifests buildMap raw = (out, Some e) ->
     exists pre x post parsed,
       elems raw = pre ++ x :: post /\
       Forall2 (fun x' y => parseResourcePool buildMap x' = Assign y) pre parsed /\
       parseResourcePool buildMap x = Return e /\
       out = Some (parsed ++ replicate (S (length post)) ResourcePool.zero)) /\
  (forall raw out e, parseDiskPoolManifests buildMap raw = (out, Some e) ->
     exists pre x post parsed,
       elems raw = pre ++ x :: post /\
       Forall2 (fun x' y => parseDiskPool buildMap x' = Assign y) pre parsed /\
       parseDiskPool buildMap x = Return e /\
       out = Some (parsed ++ replicate (S (length post)) DiskPool.zero)) /\
  (forall raw out e, parseJobManifests buildMap raw = (out, Some e) ->
     exists pre x post parsed,
       elems raw = pre ++ x :: post /\
       Forall2 (fun x' y => parseJob buildMap x' = Assign y) pre parsed /\
       parseJob buildMap x = Return e /\
       out = Some (parsed ++ replicate (S (length post)) Job.zero)).
Proof.
  split; [|split; [|split]]; intros raw out e Hrun;
    by apply makeAndRange_error_inv in Hrun.
Qed.

(** X7. A nil or empty section is accepted by every section parser, which
    returns an allocated slice of length 0 and no error, whatever the
    property builder does. *)
Theorem empty_sections_parse raw_networks raw_pools raw_disks raw_jobs :
  len raw_networks = 0%nat -> len raw_pools = 0%nat ->
  len raw_disks = 0%nat -> len raw_jobs = 0%nat ->
  parseNetworkManifests buildMap raw_networks = (Some [], None) /\
  parseResourcePoolManifests buildMap raw_pools = (Some [], None) /\
  parseDiskPoolManifests buildMap raw_disks = (Some [], None) /\
  parseJobManifests buildMap raw_jobs = (Some [], None).
Proof.
  unfold len. intros Hn Hp Hd Hj.
  repeat split; apply makeAndRange_results;
    match goal with
    | |- Forall2 _ (elems ?raw) _ => destruct (elems raw); [constructor|done]
    end.
Qed.

End SectionParserContents.

(** ** The orchestrator, step by step *)

Section OrchestratorContents.

Variable buildMap : rawmap -> Map * option error.
Variable newWatchTime : string -> WatchTime.t * option error.

(** The messages with which [parseDeploymentManifest] wraps an error. *)
Lemma parseDeploymentManifest_error_inv m e :
  snd (parseDeploymentManifest buildMap newWatchTime m) = Some e ->
  exists cause format args,
    e = WrapErrorf cause format args /\
    stageFailure buildMap newWatchTime m cause /\
    In format ["Parsing networks: %#v"; "Parsing resource_pools: %#v";
               "Parsing disk_pools: %#v"; "Parsing jobs: %#v";
               "Parsing global manifest properties: %#v";
               "Parsing update watch time"].
Proof.
  unfold parseDeploymentManifest, stageFailure.
  destruct (parseNetworkManifests buildMap (manifest.Networks m)) as [networks [e1|]];
    simpl.
  { intros [= <-]. eexists _, _, _. split; [reflexivity|]. split; [tauto|simpl; tauto]. }
  destruct (parseResourcePoolManifests buildMap (manifest.ResourcePools m))
    as [resourcePools [e2|]]; simpl.
  { intros [= <-]. eexists _, _, _. split; [reflexivity|]. split; [tauto|simpl; tauto]. }
  destruct (parseDiskPoolManifests buildMap (manifest.DiskPools m)) as [diskPools [e3|]];
    simpl.
  { intros [= <-]. eexists _, _, _. split; [reflexivity|]. split; [tauto|simpl; tauto]. }
  destruct (parseJobManifests buildMap (manifest.Jobs m)) as [jobs [e4|]]; simpl.
  { intros [= <-]. eexists _, _, _. split; [reflexivity|]. split; [tauto|simpl; tauto]. }
  destruct (buildMap (manifest.Properties m)) as [properties [e5|]]; simpl.
  { intros [= <-]. eexists _, _, _. split; [reflexivity|]. split; [tauto|simpl; tauto]. }
  destruct (UpdateSpec.UpdateWatchTime (manifest.Update m)) as [expression|]; [|done].
  destruct (newWatchTime expression) as [updateWatchTime [e6|]] eqn:Hwatch; [|done].
  simpl. intros [= <-]. eexists _, _, _. split; [reflexivity|]. split; [|simpl; tauto].
  do 5 right. exists expression. by rewrite Hwatch.
Qed.

(** X8. [parseDeploymentManifest] returns no error exactly when none of its
    six steps fails on the document: the four section parsers, the builder
    on the global properties and, when an expression is supplied, the watch
    time parser. *)
Theorem parse_deployment_succeeds_iff_no_step_fails m :
  snd (parseDeploymentManifest buildMap newWatchTime m) = None <->
  forall cause, ~ stageFailure buildMap newWatchTime m cause.
Proof.
  split.
  - intros Hok cause Hfails.
    destruct (stage_failure_aborts buildMap newWatchTime m cause Hfails)
      as (cause' & format & args & _ & Hrun).
    by rewrite Hrun in Hok.
  - intros Hnone.
    destruct (snd (parseDeploymentManifest buildMap newWatchTime m)) as [e|] eqn:Herr;
      [|done].
    apply parseDeploymentManifest_error_inv in Herr as (cause & _ & _ & _ & Hfails & _).
    by destruct (Hnone cause).
Qed.

(** X9. An error of [parseDeploymentManifest] is never the bare error of a
    step: it is the error that a step returns on the document, wrapped with
    one of the six messages of the orchestrator. *)
Theorem parse_deployment_error_is_wrapped_step_error m e :
  snd (parseDeploymentManifest buildMap newWatchTime m) = Some e ->
  exists cause format args,
    e = WrapErrorf cause format args /\
    stageFailure buildMap newWatchTime m cause /\
    In format ["Parsing networks: %#v"; "Parsing resource_pools: %#v";
               "Parsing disk_pools: %#v"; "Parsing jobs: %#v";
               "Parsing global manifest properties: %#v";
               "Parsing update watch time"].
Proof. apply parseDeploymentManifest_error_inv. Qed.

(** X10. The four sections of a successfully parsed model are allocated
    slices of the lengths of the document's sections; a section that is
    absent from the document gives an empty slice, not a nil one. *)
Theorem model_sections_allocated m d :
  parseDeploymentManifest buildMap newWatchTime m = (d, None) ->
  (exists networks, Manifest.Networks d = Some networks /\
     length networks = len (manifest.Networks m)) /\
  (exists resourcePools, Manifest.ResourcePools d = Some resourcePools /\
     length resourcePools = len (manifest.ResourcePools m)) /\
  (exists diskPools, Manifest.DiskPools d = Some diskPools /\
     length diskPools = len (manifest.DiskPools m)) /\
  (exists jobs, Manifest.Jobs d = Some jobs /\
     length jobs = len (manifest.Jobs m)).
Proof.
  intros Hrun.
  apply parseDeploymentManifest_success in Hrun as (_ & Hn & Hr & Hd & Hj & _).
  repeat split;
    match goal with
    | H : ?parse buildMap ?raw = (?field, None) |- exists l, ?field = Some l /\ _ =>
        destruct (makeAndRange_ok_inv _ _ _ _ H) as (l & Hall & ->);
        exists l; split; [done|]; symmetry; exact (Forall2_length _ _ _ Hall)
    end.
Qed.

(** X11. Each field of a successfully parsed model is determined by the
    same-named part of the document alone: two documents that agree on a
    section give models that agree on it, whatever their other sections
    hold. *)
Theorem model_fields_follow_own_section m m' d d' :
  parseDeploymentManifest buildMap newWatchTime m = (d, None) ->
  parseDeploymentManifest buildMap newWatchTime m' = (d', None) ->
  (manifest.Name m = manifest.Name m' -> Manifest.Name d = Manifest.Name d') /\
  (manifest.Update m = manifest.Update m' -> Manifest.Update d = Manifest.Update d') /\
  (manifest.Networks m = manifest.Networks m' ->
   Manifest.Networks d = Manifest.Networks d') /\
  (manifest.ResourcePools m = manifest.ResourcePools m' ->
   Manifest.ResourcePools d = Manifest.ResourcePools d') /\
  (manifest.DiskPools m = manifest.DiskPools m' ->
   Manifest.DiskPools d = Manifest.DiskPools d') /\
  (manifest.Jobs m = manifest.Jobs m' -> Manifest.Jobs d = Manifest.Jobs d') /\
  (manifest.Properties m = manifest.Properties m' ->
   Manifest.Properties d = Manifest.Properties d').
Proof.
  intros Hrun Hrun'.
  apply parseDeploymentManifest_success in Hrun as (Hname & Hn & Hr & Hd & Hj & Hp & Hu).
  apply parseDeploymentManifest_success in Hrun'
    as (Hname' & Hn' & Hr' & Hd' & Hj' & Hp' & Hu').
  repeat split; intros Heq; try congruence.
  rewrite <- Heq in Hu'.
  destruct (UpdateSpec.UpdateWatchTime (manifest.Update m)) as [expression|].
  - destruct (Manifest.Update d) as [w], (Manifest.Update d') as [w']. simpl in *.
    congruence.
  - congruence.
Qed.

End OrchestratorContents.

(** ** Reading and decoding *)

Section ParseContents.

Variable ReadFile : string -> list Byte.byte * option error.
Variable Unmarshal : list Byte.byte -> manifest.t -> manifest.t * option error.
Variable buildMap : rawmap -> Map * option error.
Variable newWatchTime : string -> WatchTime.t * option error.

(** X12. [Parse] returns an error in exactly three ways: the read fails and
    the error is wrapped with the path; the decoder fails; or
    [parseDeploymentManifest] fails on the decoded document. The last two
    are wrapped with the same message. *)
Theorem Parse_error_sources path e :
  snd (Parse ReadFile Unmarshal buildMap newWatchTime path) = Some e <->
  (exists err, snd (ReadFile path) = Some err /\
     e = WrapErrorf err "Reading file %s" [ArgString path]) \/
  (snd (ReadFile path) = None /\
   exists err, snd (Unmarshal (fst (ReadFile path)) manifest.zero) = Some err /\
     e = WrapError err "Unmarshalling BOSH deployment manifest") \/
  (snd (ReadFile path) = None /\
   snd (Unmarshal (fst (ReadFile path)) manifest.zero) = None /\
   exists err,
     snd (parseDeploymentManifest buildMap newWatchTime
            (fst (Unmarshal (fst (ReadFile path)) manifest.zero))) = Some err /\
     e = WrapError err "Unmarshalling BOSH deployment manifest").
Proof.
  unfold Parse.
  destruct (ReadFile path) as [contents [e1|]]; simpl.
  { split; [intros [= <-]; left; eauto|].
    intros [(err & [= <-] & ->)|[[? _]|[? _]]]; done. }
  destruct (Unmarshal contents manifest.zero) as [m [e2|]]; simpl.
  { split; [intros [= <-]; right; left; eauto|].
    intros [(err & ? & _)|[(_ & err & [= <-] & ->)|(_ & ? & _)]]; done. }
  destruct (parseDeploymentManifest buildMap newWatchTime m) as [d [e3|]]; simpl.
  - split; [intros [= <-]; right; right; eauto|].
    intros [(err & ? & _)|[(_ & err & ? & _)|(_ & _ & err & [= <-] & ->)]]; done.
  - split; [done|].
    intros [(err & ? & _)|[(_ & err & ? & _)|(_ & _ & err & ? & _)]]; done.
Qed.

(** X13. [Parse] succeeds exactly when the read, the decoder and
    [parseDeploymentManifest] all succeed, and it then returns the model of
    [parseDeploymentManifest] unchanged. *)
Theorem Parse_success_iff path d :
  Parse ReadFile Unmarshal buildMap newWatchTime path = (d, None) <->
  exists contents m,
    ReadFile path = (contents, None) /\
    Unmarshal contents manifest.zero = (m, None) /\
    parseDeploymentManifest buildMap newWatchTime m = (d, None).
Proof.
  split; [apply Parse_success|].
  intros (contents & m & Hread & Hdecode & Hrun). unfold Parse.
  by rewrite Hread, Hdecode, Hrun.
Qed.

End ParseContents.

(** ** The fake command *)

Section FakeCommandFacts.

Variable biui_Stage : Type.

Lemma runAll_app (f : fakes.FakeCommand biui_Stage) calls1 calls2 :
  fakes.runAll f (calls1 ++ calls2) =
    (fst (fakes.runAll (fst (fakes.runAll f calls1)) calls2),
     snd (fakes.runAll f calls1) ++ snd (fakes.runAll (fst (fakes.runAll f calls1)) calls2)).
Proof.
  revert f. induction calls1 as [|[stage args] calls1 IH]; intros f; simpl.
  - by destruct (fakes.runAll f calls2).
  - rewrite IH.
    by destruct (fakes.runAll _ calls1) as [f1 errs1], (fakes.runAll f1 calls2) as [f2 errs2].
Qed.

Lemma runAll_keeps (f : fakes.FakeCommand biui_Stage) calls :
  fakes.name (fst (fakes.runAll f calls)) = fakes.name f /\
  fakes.PresetError (fst (fakes.runAll f calls)) = fakes.PresetError f /\
  snd (fakes.runAll f calls) = replicate (length calls) (fakes.PresetError f).
Proof.
  revert f. induction calls as [|[stage args] calls IH]; intros f; simpl; [done|].
  specialize (IH (fakes.mk (fakes.name f) stage args (fakes.PresetError f))).
  destruct (fakes.runAll _ calls) as [f' errs]. simpl in *.
  destruct IH as (-> & -> & ->). done.
Qed.

(** X14. After any series of [Run] calls the fake command holds the stage
    and the arguments of the last call only, [GetArgs] returns those
    arguments (nil when the call passed nil), and its name is the one it was
    built with. Before any call, a command from [NewFakeCommand] reports an
    empty, non-nil argument list. *)
Theorem fake_command_records_last_run :
  (forall (f : fakes.FakeCommand biui_Stage) calls stage args,
     let f' := fst (fakes.runAll f (calls ++ [(stage, args)])) in
     fakes.GetArgs f' = args /\
     fakes.Stage f' = stage /\
     fakes.Name f' = fakes.Name f) /\
  (forall name,
     fakes.GetArgs (fakes.NewFakeCommand biui_Stage name) = Some [] /\
     fakes.Name (fakes.NewFakeCommand biui_Stage name) = name).
Proof.
  split; [|done].
  intros f calls stage args. rewrite runAll_app. simpl.
  destruct (runAll_keeps f calls) as (Hname & _ & _). done.
Qed.

(** X15. Every [Run] call returns the preset error of the command, whatever
    stage and arguments it is given and however many calls came before: nil
    for a command fresh from [NewFakeCommand], the error set by the test
    otherwise. *)
Theorem fake_command_returns_preset_error :
  (forall (f : fakes.FakeCommand biui_Stage) calls,
     snd (fakes.runAll f calls) = replicate (length calls) (fakes.PresetError f)) /\
  (forall name calls,
     snd (fakes.runAll (fakes.NewFakeCommand biui_Stage name) calls) = replicate (length calls) None) /\
  (forall name err calls,
     snd (fakes.runAll (fakes.setPresetError err (fakes.NewFakeCommand biui_Stage name)) calls)
       = replicate (length calls) err).
Proof.
  split; [|split]; intros; by rewrite (proj2 (proj2 (runAll_keeps _ _))).
Qed.

End FakeCommandFacts.

(** ** The further properties at sample documents *)

Lemma network_parser_fails_only_on_cloud_properties_sample :
  snd (parseNetworkManifests BuildMap (Some [sampleNetwork; brokenNetwork; brokenNetwork]))
    = Some (WrapErrorf (Errorf "unsupported key type: bool")
              "Parsing network '%s' cloud_properties: %#v"
              [ArgString "public"; ArgProperties badProperties]).
Proof.
  refine (proj2 (network_parser_fails_only_on_cloud_properties BuildMap)
            (Some [sampleNetwork; brokenNetwork; brokenNetwork])
            [sampleNetwork] brokenNetwork [brokenNetwork] _ eq_refl _ eq_refl).
  repeat constructor.
Defined.

Lemma job_parser_fails_only_on_properties_sample :
  snd (parseJobManifests BuildMap (Some [sampleJob; fullJob; brokenJob]))
    = Some (WrapErrorf (Errorf "unsupported key type: bool")
              "Parsing job '%s' properties: %#v"
              [ArgString "db"; ArgProperties badProperties]).
Proof.
  refine (proj2 (job_parser_fails_only_on_properties BuildMap)
            (Some [sampleJob; fullJob; brokenJob])
            [sampleJob; fullJob] brokenJob [] _ eq_refl _ _ eq_refl).
  - constructor; [by left|]. constructor; [by right|]. constructor.
  - discriminate.
Defined.

Lemma parsed_entries_carry_built_trees_sample :
  elems (fst (parseResourcePoolManifests BuildMap (Some [sampleResourcePool]))) !! 0%nat
    = Some (ResourcePool.mk "" "" (Some [("ram", PInt 2048)]) (Some [])).
Proof.
  exact (proj1 (proj2 (parsed_entries_carry_built_trees BuildMap))
           (Some [sampleResourcePool]) _ 0%nat sampleResourcePool eq_refl eq_refl).
Defined.

Lemma job_sequences_expanded_sample :
  exists y,
    elems (fst (parseJobManifests BuildMap (Some [sampleJob; fullJob]))) !! 1%nat = Some y /\
    len (Job.Templates y) = 2%nat /\ len (Job.Networks y) = 2%nat /\
    Job.Networks y =
      Some [JobNetwork.mk "default" (Some ["dns"; "gateway"]) None;
            JobNetwork.mk "public" None (Some ["10.0.0.5"])].
Proof.
  eexists. split; [reflexivity|].
  destruct (job_sequences_expanded BuildMap (Some [sampleJob; fullJob]) _ 1 fullJob _
              eq_refl eq_refl eq_refl) as (_ & Hnetworks & Hlen & Hlen').
  split; [exact Hlen|]. split; [exact Hlen'|exact Hnetworks].
Defined.

Lemma job_properties_and_disks_sample :
  exists y,
    elems (fst (parseJobManifests BuildMap (Some [fullJob]))) !! 0%nat = Some y /\
    Job.Properties y = Some [("port", PInt 80)] /\
    Job.PersistentDisk y = 10%Z /\ Job.PersistentDiskPool y = "fast-disks".
Proof.
  eexists. split; [reflexivity|].
  destruct (job_properties_and_disks BuildMap (Some [fullJob]) _ 0 fullJob _
              eq_refl eq_refl eq_refl) as (Hproperties & Hdisk & Hpool).
  split; [|split; [exact Hdisk|exact Hpool]].
  apply Hproperties. discriminate.
Defined.

Lemma section_parsers_partial_on_error_sample :
  exists parsed e,
    parseNetworkManifests BuildMap (Some [sampleNetwork; brokenNetwork; sampleNetwork])
    = (Some [parsed; Network.zero; Network.zero], Some e) /\
    exists pre x post,
      [sampleNetwork; brokenNetwork; sampleNetwork] = pre ++ x :: post /\
      parseNetwork BuildMap x = Return e.
Proof.
  eexists _, _. split; [reflexivity|].
  destruct (proj1 (section_parsers_partial_on_error BuildMap)
              (Some [sampleNetwork; brokenNetwork; sampleNetwork]) _ _ eq_refl)
    as (pre & x & post & parsed & Heq & _ & Hx & _).
  exists pre, x, post. split; [exact Heq|exact Hx].
Defined.

Lemma empty_sections_parse_sample :
  parseNetworkManifests BuildMap None = (Some [], None) /\
  parseJobManifests BuildMap (Some []) = (Some [], None).
Proof.
  destruct (empty_sections_parse BuildMap None None None (Some [])
              eq_refl eq_refl eq_refl eq_refl) as (Hnetworks & _ & _ & Hjobs).
  split; [exact Hnetworks|exact Hjobs].
Defined.

Lemma parse_deployment_succeeds_iff_no_step_fails_sample :
  snd (parseDeploymentManifest BuildMap NewWatchTime sampleManifest) = None.
Proof.
  apply (parse_deployment_succeeds_iff_no_step_fails BuildMap NewWatchTime sampleManifest).
  intros cause [H|[H|[H|[H|[H|(expression & H & _)]]]]]; discriminate H.
Defined.

Lemma parse_deployment_error_is_wrapped_step_error_sample :
  exists cause format args,
    snd (parseDeploymentManifest BuildMap NewWatchTime brokenManifest)
      = Some (WrapErrorf cause format args) /\
    stageFailure BuildMap NewWatchTime brokenManifest cause.
Proof.
  destruct (parse_deployment_error_is_wrapped_step_error BuildMap NewWatchTime
              brokenManifest _ eq_refl) as (cause & format & args & Heq & Hstep & _).
  exists cause, format, args. split; [|exact Hstep].
  rewrite <- Heq. reflexivity.
Defined.

Lemma model_sections_allocated_sample :
  exists networks jobs,
    Manifest.Networks (fst (parseDeploymentManifest BuildMap NewWatchTime manifest.zero))
      = Some networks /\ length networks = 0%nat /\
    Manifest.Jobs (fst (parseDeploymentManifest BuildMap NewWatchTime manifest.zero))
      = Some jobs /\ length jobs = 0%nat.
Proof.
  destruct (model_sections_allocated BuildMap NewWatchTime manifest.zero
              (fst (parseDeploymentManifest BuildMap NewWatchTime manifest.zero)) eq_refl)
    as ((networks & Hnetworks & Hn) & _ & _ & (jobs & Hjobs & Hj)).
  exists networks, jobs. split; [exact Hnetworks|]. split; [exact Hn|].
  split; [exact Hjobs|exact Hj].
Defined.

Lemma model_fields_follow_own_section_sample :
  Manifest.Jobs (fst (parseDeploymentManifest BuildMap NewWatchTime sampleManifest))
  = Manifest.Jobs (fst (parseDeploymentManifest BuildMap NewWatchTime
                          (withWatchTime "5000" sampleManifest))).
Proof.
  destruct (model_fields_follow_own_section BuildMap NewWatchTime
              sampleManifest (withWatchTime "5000" sampleManifest) _ _ eq_refl eq_refl)
    as (_ & _ & _ & _ & _ & Hjobs & _).
  exact (Hjobs eq_refl).
Defined.

Lemma Parse_error_sources_sample :
  exists err,
    snd (parseDeploymentManifest BuildMap NewWatchTime brokenManifest) = Some err /\
    snd (Parse fakeReadFile (fakeUnmarshal brokenManifest) BuildMap NewWatchTime
           "manifest.yml")
      = Some (WrapError err "Unmarshalling BOSH deployment manifest").
Proof.
  eexists. split; [reflexivity|].
  apply (Parse_error_sources fakeReadFile (fakeUnmarshal brokenManifest)
           BuildMap NewWatchTime).
  right. right. split; [reflexivity|]. split; [reflexivity|].
  eexists. split; reflexivity.
Defined.

Lemma Parse_success_iff_sample :
  Parse fakeReadFile (fakeUnmarshal sampleManifest) BuildMap NewWatchTime "manifest.yml"
  = (fst (parseDeploymentManifest BuildMap NewWatchTime sampleManifest), None).
Proof.
  apply (Parse_success_iff fakeReadFile (fakeUnmarshal sampleManifest)
           BuildMap NewWatchTime).
  exists [], sampleManifest. repeat split.
Defined.
